(** * RS3 drop calculator: the probability engine, embedded and verified

    The development follows the TypeScript sources file by file:
    [lib/calculations/dropRate.ts], [badLuckMitigation.ts], [luck.ts],
    [tableBased.ts], [enrageScaling.ts] and [lib/utils/graphDataGenerator.ts].

    Conventions of the embedding.
    - A JavaScript [number] that carries a rate or a probability is a real
      number ([R]): every operation is exact, IEEE rounding is idealised
      away.  The non-finite values that [Math.log] produces at arguments
      [<= 0] are kept, in the type [number] below, because
      [findMilestoneAttempts] can reach them.
    - Since the code rounds, two values that it obtains by different
      operations ([Math.pow] against the multiplication loop, the quotient
      of logarithms against the power, a quotient against its reciprocal)
      agree with their exact counterparts to rounding only.  Theorems that
      compare such values are stated with slack (within [10^-9], within one
      trial) and over rates up to [10^6], where [1 - 1/rate] stays clear of
      [1].
    - A [number] that carries a count of trials (attempts, kill numbers, the
      start of the pity schedule, sample positions of the chart) is an
      integer ([Z]).
    - [throw new Error(msg)] is the constructor [Throw msg] of [result]; code
      that calls throwing functions is written in the error monad.
    - A [for] loop is a structurally recursive function over the number of
      iterations left, threading the loop variable and the accumulator. *)

From Stdlib Require Import Reals Lra Lia ZArith List String Zfloor Sorted.
Import ListNotations.

#[local] Open Scope string_scope.
#[local] Open Scope R_scope.

(** ** Exceptions *)

Inductive result (A : Type) : Type :=
| Ok (a : A)
| Throw (msg : string).

Arguments Ok {A} a.
Arguments Throw {A} msg.

Definition bind {A B : Type} (m : result A) (k : A -> result B) : result B :=
  match m with
  | Ok a => k a
  | Throw msg => Throw msg
  end.

Notation "x <- m ;; k" := (bind m (fun x => k))
  (at level 61, m at next level, right associativity).

(** ** The values of [Math.log], [/] and [Math.ceil] *)

Inductive number : Type :=
| Fin (x : R)
| PosInfinity
| NegInfinity
| NaN.

(** [Math.log]: [NaN] below zero, [-Infinity] at zero, the exact natural
    logarithm elsewhere. *)
Definition Math_log (x : R) : number :=
  if Rlt_dec x 0 then NaN
  else if Req_EM_T x 0 then NegInfinity
  else Fin (ln x).

(** IEEE division; a real zero divisor is read as [+0]. *)
Definition number_div (a b : number) : number :=
  match a, b with
  | NaN, _ | _, NaN => NaN
  | Fin x, Fin y =>
      if Req_EM_T y 0
      then (if Rlt_dec 0 x then PosInfinity
            else if Rlt_dec x 0 then NegInfinity else NaN)
      else Fin (x / y)
  | Fin _, (PosInfinity | NegInfinity) => Fin 0
  | PosInfinity, Fin y => if Rlt_dec y 0 then NegInfinity else PosInfinity
  | NegInfinity, Fin y => if Rlt_dec y 0 then PosInfinity else NegInfinity
  | (PosInfinity | NegInfinity), (PosInfinity | NegInfinity) => NaN
  end.

Definition Math_ceil (a : number) : number :=
  match a with
  | Fin x => Fin (IZR (Zceil x))
  | other => other
  end.

(** [Math.pow] at an integer exponent, as the exact power: in exact
    arithmetic it is the product that the loops of [badLuckMitigation.ts]
    accumulate factor by factor. *)
Definition Math_pow (x : R) (n : Z) : R := powerRZ x n.

(** IEEE subtraction and multiplication, [Math.max] and [Math.min]. *)
Definition number_sub (a b : number) : number :=
  match a, b with
  | NaN, _ | _, NaN => NaN
  | Fin x, Fin y => Fin (x - y)
  | Fin _, PosInfinity => NegInfinity
  | Fin _, NegInfinity => PosInfinity
  | PosInfinity, (Fin _ | NegInfinity) => PosInfinity
  | NegInfinity, (Fin _ | PosInfinity) => NegInfinity
  | PosInfinity, PosInfinity | NegInfinity, NegInfinity => NaN
  end.

Definition number_mul (a b : number) : number :=
  match a, b with
  | NaN, _ | _, NaN => NaN
  | Fin x, Fin y => Fin (x * y)
  | Fin x, PosInfinity | PosInfinity, Fin x =>
      if Rlt_dec 0 x then PosInfinity
      else if Rlt_dec x 0 then NegInfinity else NaN
  | Fin x, NegInfinity | NegInfinity, Fin x =>
      if Rlt_dec 0 x then NegInfinity
      else if Rlt_dec x 0 then PosInfinity else NaN
  | PosInfinity, PosInfinity | NegInfinity, NegInfinity => PosInfinity
  | PosInfinity, NegInfinity | NegInfinity, PosInfinity => NegInfinity
  end.

Definition Math_max (a b : number) : number :=
  match a, b with
  | NaN, _ | _, NaN => NaN
  | PosInfinity, _ | _, PosInfinity => PosInfinity
  | NegInfinity, other | other, NegInfinity => other
  | Fin x, Fin y => Fin (Rmax x y)
  end.

Definition Math_min (a b : number) : number :=
  match a, b with
  | NaN, _ | _, NaN => NaN
  | NegInfinity, _ | _, NegInfinity => NegInfinity
  | PosInfinity, other | other, PosInfinity => other
  | Fin x, Fin y => Fin (Rmin x y)
  end.

(** ** lib/calculations/dropRate.ts *)

Module DropRate.

Definition MAX_PROBABILITY : R := 9999 / 10000.

Definition calculateBaseProbability (dropRate : R) : result R :=
  if Rle_dec dropRate 0 then Throw "Drop rate must be positive"
  else Ok (1 / dropRate).

Definition calculateCumulativeProbability (attempts : Z) (dropRate : R)
  : result R :=
  if (attempts <? 0)%Z then Throw "Attempts must be non-negative"
  else if (attempts =? 0)%Z then Ok 0
  else
    baseProbability <- calculateBaseProbability dropRate ;;
    let probabilityOfNone := Math_pow (1 - baseProbability) attempts in
    let cumulativeProbability := 1 - probabilityOfNone in
    Ok (Rmin cumulativeProbability MAX_PROBABILITY).

Definition findMilestoneAttempts (targetProbability dropRate : R)
  : result number :=
  if Rle_dec targetProbability 0
  then Throw "Target probability must be between 0 and 1 (exclusive)"
  else if Rge_dec targetProbability 1
  then Throw "Target probability must be between 0 and 1 (exclusive)"
  else
    baseProbability <- calculateBaseProbability dropRate ;;
    let cappedTarget := Rmin targetProbability MAX_PROBABILITY in
    let attempts :=
      number_div (Math_log (1 - cappedTarget))
                 (Math_log (1 - baseProbability)) in
    Ok (Math_ceil attempts).

Record Milestones : Type := mkMilestones {
  fifty : number;
  ninety : number;
  ninetyNine : number
}.

Definition getMilestoneProbabilities (dropRate : R) : result Milestones :=
  fifty <- findMilestoneAttempts (1 / 2) dropRate ;;
  ninety <- findMilestoneAttempts (9 / 10) dropRate ;;
  ninetyNine <- findMilestoneAttempts (99 / 100) dropRate ;;
  Ok {| fifty := fifty; ninety := ninety; ninetyNine := ninetyNine |}.

End DropRate.

(** ** lib/calculations/badLuckMitigation.ts *)

Module BadLuckMitigation.

Definition getDropRateForKill
  (killNumber : Z) (baseDenominator : R) (mitigationStart : Z)
  (mitigationCap : R) : result R :=
  if (killNumber <=? 0)%Z then Throw "Kill number must be positive"
  else if Rle_dec baseDenominator 0
  then Throw "Base denominator must be positive"
  else if Rle_dec mitigationCap 0
  then Throw "Mitigation cap must be positive"
  else if (mitigationStart <? 0)%Z
  then Throw "Mitigation start must be non-negative"
  else if (killNumber <=? mitigationStart)%Z then Ok baseDenominator
  else
    let killsPastStart := IZR (killNumber - mitigationStart) in
    let adjustedDenominator := baseDenominator - killsPastStart in
    Ok (Rmax adjustedDenominator mitigationCap).

(** The body of [for (let kill = 1; kill <= attempts; kill++)]: [todo]
    iterations are left, [kill] is the loop variable and
    [probabilityOfNoDrop] the accumulator. *)
Fixpoint killLoop (baseDenominator : R) (mitigationStart : Z)
  (mitigationCap : R) (todo : nat) (kill : Z) (probabilityOfNoDrop : R)
  : result R :=
  match todo with
  | O => Ok probabilityOfNoDrop
  | S todo' =>
      dropRateDenominator <-
        getDropRateForKill kill baseDenominator mitigationStart mitigationCap ;;
      let probNoDropThisKill := 1 - 1 / dropRateDenominator in
      killLoop baseDenominator mitigationStart mitigationCap todo'
        (kill + 1)%Z (probabilityOfNoDrop * probNoDropThisKill)
  end.

Definition calculateCumulativeProbabilityWithBLM
  (attempts : Z) (baseDenominator : R) (mitigationStart : Z)
  (mitigationCap : R) : result R :=
  if (attempts <? 0)%Z then Throw "Attempts must be non-negative"
  else if (attempts =? 0)%Z then Ok 0
  else
    probabilityOfNoDrop <-
      killLoop baseDenominator mitigationStart mitigationCap
        (Z.to_nat attempts) 1%Z 1 ;;
    let cumulativeProbability := 1 - probabilityOfNoDrop in
    Ok (Rmin cumulativeProbability (9999 / 10000)).

(** [while (low < high) { mid = Math.floor((low + high) / 2); ... }]: the
    binary search of [findMilestoneAttemptsWithBLM], which luck.ts repeats
    word for word with another [probe].  [low] starts at [1] and only takes
    the values [mid + 1], so it is an integer; [high] starts at ten times
    the base denominator, a real.  The loop carries fuel; [None] is a run
    that has not finished within it. *)
Fixpoint milestoneSearch (probe : Z -> result R) (targetProbability : R)
  (fuel : nat) (low : Z) (high : R) : option (result Z) :=
  match fuel with
  | O => None
  | S fuel' =>
      if Rlt_dec (IZR low) high
      then
        let mid := Zfloor ((IZR low + high) / 2) in
        match probe mid with
        | Throw msg => Some (Throw msg)
        | Ok prob =>
            if Rlt_dec prob targetProbability
            then milestoneSearch probe targetProbability fuel' (mid + 1)%Z high
            else milestoneSearch probe targetProbability fuel' low (IZR mid)
        end
      else Some (Ok low)
  end.

Definition findMilestoneAttemptsWithBLM (fuel : nat)
  (targetProbability baseDenominator : R) (mitigationStart : Z)
  (mitigationCap : R) : option (result Z) :=
  if Rle_dec targetProbability 0
  then Some (Throw "Target probability must be between 0 and 1")
  else if Rge_dec targetProbability 1
  then Some (Throw "Target probability must be between 0 and 1")
  else
    milestoneSearch
      (fun mid =>
         calculateCumulativeProbabilityWithBLM mid baseDenominator
           mitigationStart mitigationCap)
      targetProbability fuel 1%Z (baseDenominator * 10).



End BadLuckMitigation.

(** ** lib/calculations/luck.ts *)

Module Luck.

Import DropRate BadLuckMitigation.

Definition LOTD_MULTIPLIER : R := 101 / 100.

Definition applyLuckToDropRate (baseDenominator : R) : result R :=
  if Rle_dec baseDenominator 0 then Throw "Base denominator must be positive"
  else Ok (baseDenominator / LOTD_MULTIPLIER).

Definition calculateCumulativeProbabilityWithLuck
  (attempts : Z) (baseDenominator : R) : result R :=
  improvedDenominator <- applyLuckToDropRate baseDenominator ;;
  calculateCumulativeProbability attempts improvedDenominator.

Definition calculateCumulativeProbabilityWithLuckAndBLM
  (attempts : Z) (baseDenominator : R) (mitigationStart : Z)
  (mitigationCap : R) : result R :=
  if (attempts <? 0)%Z then Throw "Attempts must be non-negative"
  else if (attempts =? 0)%Z then Ok 0
  else
    improvedBaseDenominator <- applyLuckToDropRate baseDenominator ;;
    improvedMitigationCap <- applyLuckToDropRate mitigationCap ;;
    probabilityOfNoDrop <-
      killLoop improvedBaseDenominator mitigationStart improvedMitigationCap
        (Z.to_nat attempts) 1%Z 1 ;;
    let cumulativeProbability := 1 - probabilityOfNoDrop in
    Ok (Rmin cumulativeProbability (9999 / 10000)).



Definition findMilestoneAttemptsWithLuck (targetProbability baseDenominator : R)
  : result number :=
  improvedDenominator <- applyLuckToDropRate baseDenominator ;;
  findMilestoneAttempts targetProbability improvedDenominator.

(** The same binary search as [findMilestoneAttemptsWithBLM], probing the
    curve with both modifiers; the upper end is still ten times the
    unimproved base denominator. *)
Definition findMilestoneAttemptsWithLuckAndBLM (fuel : nat)
  (targetProbability baseDenominator : R) (mitigationStart : Z)
  (mitigationCap : R) : option (result Z) :=
  if Rle_dec targetProbability 0
  then Some (Throw "Target probability must be between 0 and 1")
  else if Rge_dec targetProbability 1
  then Some (Throw "Target probability must be between 0 and 1")
  else
    milestoneSearch
      (fun mid =>
         calculateCumulativeProbabilityWithLuckAndBLM mid baseDenominator
           mitigationStart mitigationCap)
      targetProbability fuel 1%Z (baseDenominator * 10).

Definition calculateKillsSavedWithLuck (targetProbability baseDenominator : R)
  : result number :=
  attemptsWithout <- findMilestoneAttempts targetProbability baseDenominator ;;
  attemptsWith <-
    findMilestoneAttemptsWithLuck targetProbability baseDenominator ;;
  Ok (number_sub attemptsWithout attemptsWith).

Definition calculateKillsSavedWithBoth (fuel : nat)
  (targetProbability baseDenominator : R) (mitigationStart : Z)
  (mitigationCap : R) : option (result number) :=
  match findMilestoneAttempts targetProbability baseDenominator with
  | Throw msg => Some (Throw msg)
  | Ok attemptsWithout =>
      match findMilestoneAttemptsWithLuckAndBLM fuel targetProbability
              baseDenominator mitigationStart mitigationCap with
      | None => None
      | Some (Throw msg) => Some (Throw msg)
      | Some (Ok attemptsWith) =>
          Some (Ok (number_sub attemptsWithout (Fin (IZR attemptsWith))))
      end
  end.

End Luck.

(** ** lib/calculations/tableBased.ts *)

Module TableBased.

Definition calculateTableHitProbability (numerator denominator : R)
  : result R :=
  if Rle_dec numerator 0
  then Throw "Numerator and denominator must be positive"
  else if Rle_dec denominator 0
  then Throw "Numerator and denominator must be positive"
  else if Rgt_dec numerator denominator
  then Throw "Numerator cannot be greater than denominator"
  else Ok (numerator / denominator).

Definition calculateItemFromTableProbability (itemWeight totalWeight : R)
  : result R :=
  if Rle_dec itemWeight 0 then Throw "Weights must be positive"
  else if Rle_dec totalWeight 0 then Throw "Weights must be positive"
  else if Rgt_dec itemWeight totalWeight
  then Throw "Item weight cannot be greater than total weight"
  else Ok (itemWeight / totalWeight).

Definition calculateTableBasedDropRate
  (tableNumerator tableDenominator itemWeight totalWeight : R) : result R :=
  tableProb <- calculateTableHitProbability tableNumerator tableDenominator ;;
  itemProb <- calculateItemFromTableProbability itemWeight totalWeight ;;
  let finalProbability := tableProb * itemProb in
  Ok (1 / finalProbability).

Definition calculateTableBasedCumulativeProbability (attempts : Z)
  (tableNumerator tableDenominator itemWeight totalWeight : R) : result R :=
  finalDropRate <-
    calculateTableBasedDropRate tableNumerator tableDenominator itemWeight
      totalWeight ;;
  DropRate.calculateCumulativeProbability attempts finalDropRate.





End TableBased.

(** ** lib/calculations/enrageScaling.ts *)

Module EnrageScaling.

(** The union type ['telos' | 'zamorak' | 'arch_glacor']; the [default]
    branch of the dispatch is unreachable at this type. *)
Inductive EnrageScalingBoss : Type :=
| telos
| zamorak
| arch_glacor.

Definition calculateTelosDropRate (enrage baseDropRate : R) : result R :=
  if Rlt_dec enrage 0 then Throw "Telos enrage must be between 0 and 4000"
  else if Rgt_dec enrage 4000
  then Throw "Telos enrage must be between 0 and 4000"
  else
    let improvementFactor := 1 + enrage / 1000 in
    Ok (baseDropRate / improvementFactor).

Definition calculateZamorakDropRate (enrage baseDropRate : R) : result R :=
  if Rlt_dec enrage 0 then Throw "Zamorak enrage must be between 0 and 4000"
  else if Rgt_dec enrage 4000
  then Throw "Zamorak enrage must be between 0 and 4000"
  else
    let improvementFactor := 1 + enrage / 800 in
    Ok (baseDropRate / improvementFactor).

Definition calculateArchGlacorDropRate (enrage baseDropRate : R) : result R :=
  if Rlt_dec enrage 0 then Throw "Arch-Glacor enrage must be non-negative"
  else
    let improvementFactor := 1 + enrage / 1200 in
    Ok (baseDropRate / improvementFactor).

Definition calculateEnrageScaledDropRate
  (boss : EnrageScalingBoss) (enrage baseDropRate : R) : result R :=
  match boss with
  | telos => calculateTelosDropRate enrage baseDropRate
  | zamorak => calculateZamorakDropRate enrage baseDropRate
  | arch_glacor => calculateArchGlacorDropRate enrage baseDropRate
  end.

(** The declared domain of the enrage parameter, per boss: the inputs on
    which the formula of that boss does not throw. *)
Definition inDomain (boss : EnrageScalingBoss) (enrage : R) : Prop :=
  match boss with
  | telos | zamorak => 0 <= enrage <= 4000
  | arch_glacor => 0 <= enrage
  end.

(** The scaled rate is not validated before it is inverted; the theorems
    below only use this function at a positive scaled rate. *)
Definition calculateCumulativeProbabilityWithEnrage
  (attempts : Z) (boss : EnrageScalingBoss) (enrage baseDropRate : R)
  : result R :=
  if (attempts <? 0)%Z then Throw "Attempts must be non-negative"
  else if (attempts =? 0)%Z then Ok 0
  else
    scaledDropRate <- calculateEnrageScaledDropRate boss enrage baseDropRate ;;
    let baseProbability := 1 / scaledDropRate in
    let probabilityOfNone := Math_pow (1 - baseProbability) attempts in
    let cumulativeProbability := 1 - probabilityOfNone in
    Ok (Rmin cumulativeProbability (9999 / 10000)).

(** [while (high - low > 1) { mid = Math.floor((low + high) / 2); ... }]:
    [low] starts at [0] and only takes the values [mid]; [high] starts at
    [maxEnrage], a real, and is what the function returns.  The loop carries
    fuel; [None] is a run that has not finished within it. *)
Fixpoint enrageSearch (boss : EnrageScalingBoss)
  (baseDropRate targetDropRate : R) (fuel : nat) (low : Z) (high : R)
  : option (result R) :=
  match fuel with
  | O => None
  | S fuel' =>
      if Rgt_dec (high - IZR low) 1
      then
        let mid := Zfloor ((IZR low + high) / 2) in
        match calculateEnrageScaledDropRate boss (IZR mid) baseDropRate with
        | Throw msg => Some (Throw msg)
        | Ok dropRate =>
            if Rgt_dec dropRate targetDropRate
            then enrageSearch boss baseDropRate targetDropRate fuel' mid high
            else enrageSearch boss baseDropRate targetDropRate fuel' low
                   (IZR mid)
        end
      else Some (Ok high)
  end.

Definition findEnrageForTargetDropRate (fuel : nat) (boss : EnrageScalingBoss)
  (baseDropRate targetDropRate maxEnrage : R) : option (result R) :=
  if Rgt_dec targetDropRate baseDropRate
  then Some (Throw "Target drop rate cannot be worse than base rate")
  else enrageSearch boss baseDropRate targetDropRate fuel 0%Z maxEnrage.

End EnrageScaling.

(** ** lib/utils/graphDataGenerator.ts *)

Module GraphDataGenerator.

#[local] Open Scope Z_scope.

(** [Math.ceil(a / b)] at integers, [b <> 0]. *)
Definition ceilDiv (a b : Z) : Z := - ((- a) / b).

(** [for (let i = step; i < maxAttempts; i += step) attempts.push(i)].
    With a step [<= 0] below [maxAttempts] the loop never ends, so the model
    carries fuel: [None] is a run that has not finished within it. *)
Fixpoint pushLoop (fuel : nat) (step maxAttempts i : Z) (attempts : list Z)
  : option (list Z) :=
  match fuel with
  | O => None
  | S fuel' =>
      if i <? maxAttempts
      then pushLoop fuel' step maxAttempts (i + step) (attempts ++ [i])
      else Some attempts
  end.

(** [if (attempts[attempts.length - 1] !== maxAttempts) attempts.push(maxAttempts)] *)
Definition pushMax (maxAttempts : Z) (attempts : list Z) : list Z :=
  if last attempts 0 =? maxAttempts then attempts
  else attempts ++ [maxAttempts].

Definition generateAttemptValues (fuel : nat) (maxAttempts maxDataPoints : Z)
  : option (list Z) :=
  let attempts := [0] in
  if maxDataPoints - 1 =? 0
  then
    (* the step is [Infinity], [NaN] or [-Infinity]: the loop is skipped in
       the first two cases and never ends in the third *)
    if maxAttempts <? 0 then None else Some (pushMax maxAttempts attempts)
  else
    let step := ceilDiv maxAttempts (maxDataPoints - 1) in
    match pushLoop fuel step maxAttempts step attempts with
    | Some attempts' => Some (pushMax maxAttempts attempts')
    | None => None
    end.

(** No validation here: a rate of [1] makes the divisor [-Infinity], a rate
    in [(0, 1)] makes it [NaN], and at rate [0] the inline quotient
    [1 / dropRate] is [Infinity], whose logarithm chain is [NaN]. *)
Definition calculateSmartMaxAttempts (dropRate : R) : number :=
  if Req_EM_T dropRate 0 then NaN
  else
    let baseProbability := (1 / dropRate)%R in
    let attemptsFor99 :=
      Math_ceil (number_div (Math_log (1 / 100)%R)
                            (Math_log (1 - baseProbability)%R)) in
    let maxAttempts := Math_ceil (number_mul attemptsFor99 (Fin (12 / 10)%R)) in
    Math_min (Math_max maxAttempts (Fin 50%R)) (Fin 30000%R).

(** The series of a data point other than [base] are optional keys. *)
Record GraphDataPoint : Type := mkGraphDataPoint {
  attempts : Z;
  base : R;
  withLuck : option R;
  withBLM : option R;
  withBoth : option R;
  withEnrage : option R
}.

(** [attempts.map(...)]: the first throwing element ends the whole call. *)
Fixpoint generateBaseData (attemptValues : list Z) (dropRate : R)
  : result (list GraphDataPoint) :=
  match attemptValues with
  | [] => Ok []
  | attempt :: rest =>
      probability <-
        DropRate.calculateCumulativeProbability attempt dropRate ;;
      points <- generateBaseData rest dropRate ;;
      Ok ({| attempts := attempt;
             base := probability;
             withLuck := None;
             withBLM := None;
             withBoth := None;
             withEnrage := None |} :: points)
  end.

Record ActiveLines : Type := mkActiveLines {
  showBase : bool;
  showLuck : bool;
  showBLM : bool;
  showBoth : bool
}.

Definition getActiveLines
  (luckEnabled blmEnabled luckApplicable blmApplicable : bool) : ActiveLines :=
  let showLuck := andb luckEnabled luckApplicable in
  let showBLM := andb blmEnabled blmApplicable in
  let showBoth := andb showLuck showBLM in
  {| showBase := true;
     showLuck := andb showLuck (negb showBoth);
     showBLM := andb showBLM (negb showBoth);
     showBoth := showBoth |}.

End GraphDataGenerator.

(** * Verification *)

(** ** Vocabulary of the statements *)

(** The chance of no drop on one trial at a given rate. *)
Definition noDropFactor (rate : R) : R := 1 - 1 / rate.

(** The denominator that [getDropRateForKill] returns on valid input. *)
Definition pityRate (baseDenominator : R) (mitigationStart : Z)
  (mitigationCap : R) (kill : Z) : R :=
  if (kill <=? mitigationStart)%Z then baseDenominator
  else Rmax (baseDenominator - IZR (kill - mitigationStart)) mitigationCap.

(** [rangeProduct f kill n] is [f kill * f (kill + 1) * ... ] over [n]
    consecutive kills. *)
Fixpoint rangeProduct (f : Z -> R) (kill : Z) (n : nat) : R :=
  match n with
  | O => 1
  | S m => f kill * rangeProduct f (kill + 1) m
  end.

(** The reported probability for a given chance of no drop at all. *)
Definition reported (probabilityOfNoDrop : R) : R :=
  Rmin (1 - probabilityOfNoDrop) (9999 / 10000).

(** A call returns a probability inside the reported interval. *)
Definition returnsProbability (r : result R) : Prop :=
  exists p, r = Ok p /\ 0 <= p <= 9999 / 10000.

(** The reported probability after [n] trials whose factors are [f]. *)
Definition curve (f : Z -> R) (n : Z) : R :=
  reported (rangeProduct f 1 (Z.to_nat n)).

(** The factors of the four folds. *)
Definition plainFactor (rate : R) (_ : Z) : R := noDropFactor rate.

Definition pityFactor (base : R) (start : Z) (cap : R) (kill : Z) : R :=
  noDropFactor (pityRate base start cap kill).

Definition luckyPityFactor (base : R) (start : Z) (cap : R) (kill : Z) : R :=
  noDropFactor
    (pityRate (base / Luck.LOTD_MULTIPLIER) start (cap / Luck.LOTD_MULTIPLIER)
       kill).

(** The scaling divisor of each boss. *)
Definition enrageDivisor (boss : EnrageScaling.EnrageScalingBoss) : R :=
  match boss with
  | EnrageScaling.telos => 1000
  | EnrageScaling.zamorak => 800
  | EnrageScaling.arch_glacor => 1200
  end.

(** The rate that the scaling formula of a boss yields inside its domain. *)
Definition scaledRate (boss : EnrageScaling.EnrageScalingBoss)
  (baseDropRate enrage : R) : R :=
  baseDropRate / (1 + enrage / enrageDivisor boss).

(** A valid table configuration. *)
Definition validTable (numerator denominator itemWeight totalWeight : R)
  : Prop :=
  0 < numerator <= denominator /\ 0 < itemWeight <= totalWeight.

(** The point that [generateBaseData] builds at one sampled count. *)
Definition basePoint (rate : R) (attempt : Z) : GraphDataGenerator.GraphDataPoint :=
  {| GraphDataGenerator.attempts := attempt;
     GraphDataGenerator.base := curve (plainFactor rate) attempt;
     GraphDataGenerator.withLuck := None;
     GraphDataGenerator.withBLM := None;
     GraphDataGenerator.withBoth := None;
     GraphDataGenerator.withEnrage := None |}.

(** ** Tactics *)

(** Decide the real comparisons of a guard, closing the impossible side. *)
Ltac case_R :=
  repeat match goal with
  | |- context [Rle_dec ?a ?b] => destruct (Rle_dec a b); try lra
  | |- context [Rlt_dec ?a ?b] => destruct (Rlt_dec a b); try lra
  | |- context [Rgt_dec ?a ?b] => destruct (Rgt_dec a b); try lra
  | |- context [Rge_dec ?a ?b] => destruct (Rge_dec a b); try lra
  | |- context [Req_EM_T ?a ?b] => destruct (Req_EM_T a b); try lra
  end.

Import DropRate BadLuckMitigation Luck TableBased EnrageScaling.

(** ** Logarithms, powers and ceilings *)

Lemma Math_pow_nat (x : R) (n : Z) : (0 <= n)%Z -> Math_pow x n = x ^ Z.to_nat n.
Proof.
  intros Hn. unfold Math_pow. rewrite pow_powerRZ, Z2Nat.id by assumption. reflexivity.
Qed.

Section LogCeil.
Variables q y : R.
Hypothesis Hq : 0 < q < 1.
Hypothesis Hy : 0 < y.

Lemma ln_base_negative : ln q < 0.
Proof. rewrite <- ln_1. apply ln_increasing; lra. Qed.

Lemma pow_le_iff_ratio (n : nat) : q ^ n <= y <-> ln y / ln q <= INR n.
Proof.
  pose proof ln_base_negative as Hl.
  assert (Hp : 0 < q ^ n) by (apply pow_lt; lra).
  assert (Hln : ln (q ^ n) = INR n * ln q) by (apply ln_pow; lra).
  assert (Heq : INR n - ln y / ln q = (ln (q ^ n) - ln y) / ln q)
    by (rewrite Hln; field; lra).
  split; intros H.
  - assert (ln (q ^ n) <= ln y).
    { destruct H as [H | H]; [left; apply ln_increasing; lra | right; congruence]. }
    assert (0 <= (ln (q ^ n) - ln y) / ln q).
    { unfold Rdiv.
      replace ((ln (q ^ n) - ln y) * / ln q)
        with ((ln y - ln (q ^ n)) * / - ln q) by (field; lra).
      apply Rmult_le_pos; [lra | left; apply Rinv_0_lt_compat; lra]. }
    lra.
  - destruct (Rle_lt_dec (q ^ n) y) as [Hle | Hlt]; [exact Hle | exfalso].
    assert (ln y < ln (q ^ n)) by (apply ln_increasing; lra).
    assert ((ln (q ^ n) - ln y) / ln q < 0).
    { unfold Rdiv.
      replace ((ln (q ^ n) - ln y) * / ln q)
        with (- ((ln (q ^ n) - ln y) * / - ln q)) by (field; lra).
      assert (0 < (ln (q ^ n) - ln y) * / - ln q)
        by (apply Rmult_lt_0_compat; [lra | apply Rinv_0_lt_compat; lra]).
      lra. }
    lra.
Qed.

Lemma Zceil_ratio_eq (n : nat) :
  q ^ S n <= y < q ^ n -> Zceil (ln y / ln q) = Z.of_nat (S n).
Proof.
  intros [Hle Hlt]. apply Zceil_eq.
  rewrite <- INR_IZR_INZ. apply pow_le_iff_ratio in Hle.
  split; [| exact Hle].
  destruct (Rle_lt_dec (ln y / ln q) (INR n)) as [Hc | Hc].
  - apply pow_le_iff_ratio in Hc. lra.
  - rewrite S_INR. lra.
Qed.

Hypothesis Hy1 : y < 1.

Lemma ratio_positive : 0 < ln y / ln q.
Proof.
  pose proof ln_base_negative.
  assert (ln y < 0) by (rewrite <- ln_1; apply ln_increasing; lra).
  replace (ln y / ln q) with ((- ln y) * / (- ln q)) by (field; lra).
  apply Rmult_lt_0_compat; [lra | apply Rinv_0_lt_compat; lra].
Qed.

Lemma Zceil_ratio_spec :
  exists n : nat,
    Zceil (ln y / ln q) = Z.of_nat (S n) /\ q ^ S n <= y < q ^ n.
Proof.
  pose proof ratio_positive as Hpos.
  pose proof (Zceil_bound (ln y / ln q)) as [Hlo Hhi].
  assert (Hz : (1 <= Zceil (ln y / ln q))%Z).
  { apply Z.lt_pred_le. apply lt_IZR. simpl. lra. }
  exists (Z.to_nat (Zceil (ln y / ln q) - 1)).
  assert (Hs : Z.of_nat (S (Z.to_nat (Zceil (ln y / ln q) - 1)))
               = Zceil (ln y / ln q)) by lia.
  split; [symmetry; exact Hs |].
  split.
  - apply pow_le_iff_ratio. rewrite INR_IZR_INZ, Hs. exact Hhi.
  - destruct (Rle_lt_dec (q ^ Z.to_nat (Zceil (ln y / ln q) - 1)) y)
      as [Hc | Hc]; [exfalso | exact Hc].
    apply pow_le_iff_ratio in Hc.
    rewrite INR_IZR_INZ, Z2Nat.id, minus_IZR in Hc by lia. lra.
Qed.
End LogCeil.

(** ** dropRate.ts *)
Lemma div_le_upper (x y z : R) : 0 < z -> x <= y * z -> x / z <= y.
Proof.
  intros Hz H. apply Rmult_le_reg_r with z; [exact Hz |].
  unfold Rdiv. rewrite Rmult_assoc, Rinv_l by lra. lra.
Qed.

Lemma div_lt_upper (x y z : R) : 0 < z -> x < y * z -> x / z < y.
Proof.
  intros Hz H. apply Rmult_lt_reg_r with z; [exact Hz |].
  unfold Rdiv. rewrite Rmult_assoc, Rinv_l by lra. lra.
Qed.

Lemma div_le_lower (x y z : R) : 0 < z -> y * z <= x -> y <= x / z.
Proof.
  intros Hz H. apply Rmult_le_reg_r with z; [exact Hz |].
  unfold Rdiv. rewrite Rmult_assoc, Rinv_l by lra. lra.
Qed.

Lemma div_lt_lower (x y z : R) : 0 < z -> y * z < x -> y < x / z.
Proof.
  intros Hz H. apply Rmult_lt_reg_r with z; [exact Hz |].
  unfold Rdiv. rewrite Rmult_assoc, Rinv_l by lra. lra.
Qed.

Lemma reciprocal_of_rate (rate : R) : 1 < rate -> 0 < 1 / rate < 1.
Proof.
  intros Hr. split; [apply Rdiv_lt_0_compat; lra | apply div_lt_upper; lra].
Qed.

(** What [findMilestoneAttempts] computes on its intended domain. *)
Lemma findMilestoneAttempts_closed_form (target rate : R) :
  0 < target < 1 -> 1 < rate ->
  findMilestoneAttempts target rate =
    Ok (Fin (IZR (Zceil (ln (1 - Rmin target MAX_PROBABILITY) / ln (1 - 1 / rate))))).
Proof.
  intros Ht Hr.
  pose proof (reciprocal_of_rate rate Hr) as Hp.
  assert (Hc : 0 < 1 - Rmin target MAX_PROBABILITY).
  { pose proof (Rmin_l target MAX_PROBABILITY). lra. }
  unfold findMilestoneAttempts, calculateBaseProbability.
  case_R. cbn [bind]. unfold Math_log. case_R. cbn [number_div].
  assert (ln (1 - 1 / rate) < 0) by (apply ln_base_negative; lra).
  destruct (Req_EM_T (ln (1 - 1 / rate)) 0); [lra | reflexivity].
Qed.

Lemma cumulative_closed_form (n : Z) (rate : R) :
  (0 < n)%Z -> 0 < rate ->
  calculateCumulativeProbability n rate =
    Ok (Rmin (1 - (1 - 1 / rate) ^ Z.to_nat n) MAX_PROBABILITY).
Proof.
  intros Hn Hr. unfold calculateCumulativeProbability, calculateBaseProbability.
  destruct (Z.ltb_spec n 0); [lia |]. destruct (Z.eqb_spec n 0); [lia |].
  case_R. cbn [bind]. rewrite Math_pow_nat by lia. reflexivity.
Qed.




(** Deciding [q ^ S n <= y < q ^ n] at rationals by integer arithmetic. *)
Lemma pow_ratio_le (a b c d : Z) (n : nat) :
  (0 < b)%Z -> (0 < d)%Z -> (d * a ^ Z.of_nat n <= c * b ^ Z.of_nat n)%Z ->
  (IZR a / IZR b) ^ n <= IZR c / IZR d.
Proof.
  intros Hb Hd H.
  assert (0 < IZR b) by (apply IZR_lt; exact Hb).
  assert (0 < IZR d) by (apply IZR_lt; exact Hd).
  assert (Hbn : 0 < IZR b ^ n) by (apply pow_lt; assumption).
  unfold Rdiv at 1. rewrite Rpow_mult_distr, pow_inv.
  apply IZR_le in H. rewrite !mult_IZR, <- !pow_IZR in H.
  apply div_le_lower; [assumption |].
  replace (IZR a ^ n * / IZR b ^ n * IZR d) with ((IZR d * IZR a ^ n) / IZR b ^ n)
    by (field; lra).
  apply div_le_upper; [assumption | lra].
Qed.

Lemma pow_ratio_gt (a b c d : Z) (n : nat) :
  (0 < b)%Z -> (0 < d)%Z -> (c * b ^ Z.of_nat n < d * a ^ Z.of_nat n)%Z ->
  IZR c / IZR d < (IZR a / IZR b) ^ n.
Proof.
  intros Hb Hd H.
  assert (0 < IZR b) by (apply IZR_lt; exact Hb).
  assert (0 < IZR d) by (apply IZR_lt; exact Hd).
  assert (Hbn : 0 < IZR b ^ n) by (apply pow_lt; assumption).
  unfold Rdiv at 2. rewrite Rpow_mult_distr, pow_inv.
  apply IZR_lt in H. rewrite !mult_IZR, <- !pow_IZR in H.
  apply div_lt_upper; [assumption |].
  replace (IZR a ^ n * / IZR b ^ n * IZR d) with ((IZR d * IZR a ^ n) / IZR b ^ n)
    by (field; lra).
  apply div_lt_lower; [assumption | lra].
Qed.

Lemma milestone_at (target : R) (c1 c2 r : Z) (n : nat) :
  0 < target < 1 -> Rmin target MAX_PROBABILITY = IZR c1 / IZR c2 ->
  (0 < c1 < c2)%Z -> (1 < r)%Z ->
  (c2 * (r - 1) ^ Z.of_nat (S n) <= (c2 - c1) * r ^ Z.of_nat (S n))%Z ->
  ((c2 - c1) * r ^ Z.of_nat n < c2 * (r - 1) ^ Z.of_nat n)%Z ->
  findMilestoneAttempts target (IZR r) = Ok (Fin (IZR (Z.of_nat (S n)))).
Proof.
  intros Ht Hcap Hc Hr Hle Hlt.
  assert (0 < IZR c1) by (apply IZR_lt; lia).
  assert (IZR c1 < IZR c2) by (apply IZR_lt; lia).
  assert (1 < IZR r) by (apply IZR_lt; lia).
  rewrite findMilestoneAttempts_closed_form by assumption.
  rewrite Hcap.
  assert (Hq : 1 - 1 / IZR r = IZR (r - 1) / IZR r)
    by (rewrite minus_IZR; field; lra).
  assert (Hy : 1 - IZR c1 / IZR c2 = IZR (c2 - c1) / IZR c2)
    by (rewrite minus_IZR; field; lra).
  assert (Hcc : 0 < IZR c1 / IZR c2 < 1).
  { split; [apply Rdiv_lt_0_compat; lra | apply div_lt_upper; lra]. }
  do 3 f_equal. rewrite Hq, Hy.
  apply Zceil_ratio_eq.
  - rewrite <- Hq. pose proof (reciprocal_of_rate (IZR r)). lra.
  - rewrite <- Hy. lra.
  - split; [apply pow_ratio_le | apply pow_ratio_gt]; try lia; assumption.
Qed.

Lemma milestone_90_at_128 : findMilestoneAttempts (9 / 10) 128 = Ok (Fin 294).
Proof.
  apply (milestone_at (9 / 10) 9 10 128 293);
    [lra | | lia | lia | vm_compute; congruence | vm_compute; congruence].
  apply Rmin_left. unfold MAX_PROBABILITY. lra.
Qed.

Lemma milestone_99_at_128 : findMilestoneAttempts (99 / 100) 128 = Ok (Fin 588).
Proof.
  apply (milestone_at (99 / 100) 99 100 128 587);
    [lra | | lia | lia | vm_compute; congruence | vm_compute; congruence].
  apply Rmin_left. unfold MAX_PROBABILITY. lra.
Qed.

(** C8, amended.  At rate 128 the closed-form solver returns 294 trials for
    the target 0.9 and 588 trials for the target 0.99. *)
Theorem milestones_at_rate_128 :
  findMilestoneAttempts (9 / 10) 128 = Ok (Fin 294) /\
  findMilestoneAttempts (99 / 100) 128 = Ok (Fin 588).
Proof. split; [exact milestone_90_at_128 | exact milestone_99_at_128]. Qed.

(** The value 295 of the docstring example is not what the formula gives. *)
Lemma milestone_90_at_128_is_not_295 :
  findMilestoneAttempts (9 / 10) 128 <> Ok (Fin 295).
Proof.
  rewrite milestone_90_at_128. intros H. injection H as H. lra.
Qed.



(** At rate [1] the divisor is [Math.log(0) = -Infinity]: the quotient is
    zero and no trial at all is reported. *)
Lemma milestone_at_rate_one : findMilestoneAttempts (1 / 2) 1 = Ok (Fin 0).
Proof.
  unfold findMilestoneAttempts, calculateBaseProbability.
  case_R. cbn [bind]. unfold Math_log.
  destruct (Rlt_dec (1 - 1 / 1) 0); [lra |].
  destruct (Req_EM_T (1 - 1 / 1) 0); [| lra].
  destruct (Rlt_dec (1 - Rmin (1 / 2) MAX_PROBABILITY) 0);
    [pose proof (Rmin_l (1 / 2) MAX_PROBABILITY); lra |].
  destruct (Req_EM_T (1 - Rmin (1 / 2) MAX_PROBABILITY) 0);
    [pose proof (Rmin_l (1 / 2) MAX_PROBABILITY); lra |].
  cbn [number_div Math_ceil]. do 3 f_equal. apply Zceil_eq. simpl. lra.
Qed.

(** The documented test values of the 50% milestone and of the failure
    paths. *)
Example milestone_50_at_128 : findMilestoneAttempts (1 / 2) 128 = Ok (Fin 89).
Proof.
  apply (milestone_at (1 / 2) 1 2 128 88);
    [lra | | lia | lia | vm_compute; congruence | vm_compute; congruence].
  apply Rmin_left. unfold MAX_PROBABILITY. lra.
Qed.

Example negative_attempts_throw :
  calculateCumulativeProbability (-1) 128
  = Throw "Attempts must be non-negative"%string.
Proof. reflexivity. Qed.

Example nonpositive_rate_throws :
  calculateCumulativeProbability 1 0 = Throw "Drop rate must be positive"%string.
Proof.
  unfold calculateCumulativeProbability, calculateBaseProbability.
  cbn [Z.ltb Z.eqb Z.compare]. case_R. reflexivity.
Qed.

Example target_one_throws :
  findMilestoneAttempts 1 128
  = Throw "Target probability must be between 0 and 1 (exclusive)"%string.
Proof. unfold findMilestoneAttempts. case_R. reflexivity. Qed.

(** ** Products of per-trial factors *)

Lemma rangeProduct_snoc (f : Z -> R) (n : nat) : forall kill,
  rangeProduct f kill (S n) = rangeProduct f kill n * f (kill + Z.of_nat n)%Z.
Proof.
  induction n as [| n IH]; intros kill.
  - cbn [rangeProduct]. rewrite Z.add_0_r. ring.
  - change (rangeProduct f kill (S (S n)))
      with (f kill * rangeProduct f (kill + 1) (S n)).
    rewrite IH. cbn [rangeProduct].
    replace (kill + 1 + Z.of_nat n)%Z with (kill + Z.of_nat (S n))%Z by lia.
    ring.
Qed.

Lemma rangeProduct_const (x : R) (n : nat) : forall kill,
  rangeProduct (fun _ => x) kill n = x ^ n.
Proof.
  induction n as [| n IH]; intros kill; cbn [rangeProduct pow];
    [reflexivity | rewrite IH; reflexivity].
Qed.


Section Dominance.
Variables f g : Z -> R.
Variable kill0 : Z.
Hypothesis f_bounds : forall k, (kill0 <= k)%Z -> - (1 / 100) <= f k <= 1.
Hypothesis f_below_g : forall k, (kill0 <= k)%Z -> f k <= g k.

Let F := rangeProduct f kill0.
Let G := rangeProduct g kill0.

Lemma product_invariant (n : nat) :
  (0 <= F n <= G n /\ F n <= 1) \/ - (1 / 100) <= F n <= 1 / 10000.
Proof.
  induction n as [| n IH].
  - left. unfold F, G. cbn [rangeProduct]. lra.
  - unfold F, G in *. rewrite !rangeProduct_snoc.
    pose proof (f_bounds (kill0 + Z.of_nat n)%Z ltac:(lia)) as Hb.
    pose proof (f_below_g (kill0 + Z.of_nat n)%Z ltac:(lia)) as Hfg.
    set (a := rangeProduct f kill0 n) in *.
    set (b := rangeProduct g kill0 n) in *.
    set (x := f (kill0 + Z.of_nat n)%Z) in *.
    set (y := g (kill0 + Z.of_nat n)%Z) in *.
    destruct (Rle_lt_dec 0 x) as [Hx | Hx].
    + destruct IH as [[[Ha Hab] Ha1] | [Hlo Hhi]].
      * left. repeat split; nra.
      * right. split; nra.
    + right. destruct IH as [[[Ha Hab] Ha1] | [Hlo Hhi]]; split; nra.
Qed.

Lemma reported_dominates (n : nat) : reported (G n) <= reported (F n).
Proof.
  unfold reported.
  destruct (product_invariant n) as [[[Ha Hab] Ha1] | [Hlo Hhi]].
  - apply Rmin_glb; [| apply Rmin_r].
    pose proof (Rmin_l (1 - G n) (9999 / 10000)). lra.
  - rewrite (Rmin_right (1 - F n)) by lra. apply Rmin_r.
Qed.

Lemma reported_in_range (n : nat) : 0 <= reported (F n) <= 9999 / 10000.
Proof.
  unfold reported. split; [| apply Rmin_r].
  apply Rmin_glb; [| lra].
  destruct (product_invariant n) as [[[Ha Hab] Ha1] | [Hlo Hhi]]; lra.
Qed.
End Dominance.

(** ** badLuckMitigation.ts and luck.ts *)

(** *** The pity schedule on valid input *)

Lemma getDropRateForKill_valid (kill : Z) (base : R) (start : Z) (cap : R) :
  (1 <= kill)%Z -> 0 < base -> (0 <= start)%Z -> 0 < cap ->
  getDropRateForKill kill base start cap = Ok (pityRate base start cap kill).
Proof.
  intros Hk Hb Hs Hc. unfold getDropRateForKill, pityRate.
  destruct (Z.leb_spec kill 0); [lia |]. case_R.
  destruct (Z.ltb_spec start 0); [lia |].
  destruct (kill <=? start)%Z; reflexivity.
Qed.

Lemma killLoop_product (base : R) (start : Z) (cap : R) :
  0 < base -> (0 <= start)%Z -> 0 < cap ->
  forall (todo : nat) (kill : Z) (acc : R),
    (1 <= kill)%Z ->
    killLoop base start cap todo kill acc =
      Ok (acc * rangeProduct (fun k => noDropFactor (pityRate base start cap k))
                  kill todo).
Proof.
  intros Hb Hs Hc. induction todo as [| todo IH]; intros kill acc Hk.
  - cbn [killLoop rangeProduct]. f_equal. ring.
  - cbn [killLoop rangeProduct].
    rewrite getDropRateForKill_valid by assumption. cbn [bind].
    rewrite IH by lia. f_equal. unfold noDropFactor. ring.
Qed.

Lemma pityRate_lower (lo base : R) (start : Z) (cap : R) (kill : Z) :
  lo <= base -> lo <= cap -> lo <= pityRate base start cap kill.
Proof.
  intros Hb Hc. unfold pityRate. destruct (kill <=? start)%Z; [exact Hb |].
  eapply Rle_trans; [exact Hc | apply Rmax_r].
Qed.

Lemma pityRate_upper (base : R) (start : Z) (cap : R) (kill : Z) :
  cap <= base -> pityRate base start cap kill <= base.
Proof.
  intros H. unfold pityRate. destruct (Z.leb_spec kill start); [lra |].
  apply Rmax_lub; [| exact H].
  assert (0 <= IZR (kill - start)) by (apply IZR_le; lia). lra.
Qed.


Lemma noDropFactor_monotone (x y : R) :
  0 < x -> x <= y -> noDropFactor x <= noDropFactor y.
Proof.
  intros Hx Hxy. unfold noDropFactor.
  assert (/ y <= / x) by (apply Rinv_le_contravar; assumption). lra.
Qed.

Lemma noDropFactor_bounds (x lo : R) :
  0 < lo -> lo <= x -> 1 - 1 / lo <= noDropFactor x < 1.
Proof.
  intros Hlo Hx. split.
  - apply (noDropFactor_monotone lo x); assumption.
  - unfold noDropFactor. assert (0 < / x) by (apply Rinv_0_lt_compat; lra). lra.
Qed.

(** *** Closed forms of the cumulative-probability functions *)

Lemma plain_reported (n : Z) (rate : R) :
  (0 < n)%Z -> 0 < rate ->
  calculateCumulativeProbability n rate =
    Ok (reported (rangeProduct (fun _ => noDropFactor rate) 1 (Z.to_nat n))).
Proof.
  intros Hn Hr. rewrite cumulative_closed_form by assumption.
  rewrite rangeProduct_const. reflexivity.
Qed.

Lemma luck_reported (n : Z) (base : R) :
  (0 < n)%Z -> 0 < base ->
  calculateCumulativeProbabilityWithLuck n base =
    Ok (reported (rangeProduct (fun _ => noDropFactor (base / LOTD_MULTIPLIER))
                    1 (Z.to_nat n))).
Proof.
  intros Hn Hb. unfold calculateCumulativeProbabilityWithLuck, applyLuckToDropRate.
  case_R. cbn [bind]. apply plain_reported; [assumption |].
  unfold LOTD_MULTIPLIER. lra.
Qed.

Lemma BLM_reported (n : Z) (base : R) (start : Z) (cap : R) :
  (0 < n)%Z -> 0 < base -> (0 <= start)%Z -> 0 < cap ->
  calculateCumulativeProbabilityWithBLM n base start cap =
    Ok (reported (rangeProduct (fun k => noDropFactor (pityRate base start cap k))
                    1 (Z.to_nat n))).
Proof.
  intros Hn Hb Hs Hc. unfold calculateCumulativeProbabilityWithBLM.
  destruct (Z.ltb_spec n 0); [lia |]. destruct (Z.eqb_spec n 0); [lia |].
  rewrite killLoop_product by (assumption || lia). cbn [bind].
  rewrite Rmult_1_l. reflexivity.
Qed.

Lemma luckAndBLM_reported (n : Z) (base : R) (start : Z) (cap : R) :
  (0 < n)%Z -> 0 < base -> (0 <= start)%Z -> 0 < cap ->
  calculateCumulativeProbabilityWithLuckAndBLM n base start cap =
    Ok (reported
          (rangeProduct
             (fun k => noDropFactor
                         (pityRate (base / LOTD_MULTIPLIER) start
                                   (cap / LOTD_MULTIPLIER) k))
             1 (Z.to_nat n))).
Proof.
  intros Hn Hb Hs Hc.
  unfold calculateCumulativeProbabilityWithLuckAndBLM, applyLuckToDropRate.
  destruct (Z.ltb_spec n 0); [lia |]. destruct (Z.eqb_spec n 0); [lia |].
  case_R. cbn [bind].
  rewrite killLoop_product by (try assumption; try lia; unfold LOTD_MULTIPLIER; lra).
  cbn [bind]. rewrite Rmult_1_l. reflexivity.
Qed.

Lemma enrage_reported (n : Z) (boss : EnrageScalingBoss) (enrage base s : R) :
  (0 < n)%Z -> calculateEnrageScaledDropRate boss enrage base = Ok s ->
  calculateCumulativeProbabilityWithEnrage n boss enrage base =
    Ok (reported (rangeProduct (fun _ => noDropFactor s) 1 (Z.to_nat n))).
Proof.
  intros Hn Hs. unfold calculateCumulativeProbabilityWithEnrage.
  destruct (Z.ltb_spec n 0); [lia |]. destruct (Z.eqb_spec n 0); [lia |].
  rewrite Hs. cbn [bind]. rewrite Math_pow_nat by lia.
  rewrite rangeProduct_const. reflexivity.
Qed.

(** The factors of the luck-and-pity fold when neither the rate nor the cap
    is below [1]: the multiplier can push them just below zero. *)
Lemma lucky_factor_bounds (base : R) (start : Z) (cap : R) (k : Z) :
  1 <= base -> 1 <= cap ->
  - (1 / 100) <=
    noDropFactor (pityRate (base / LOTD_MULTIPLIER) start (cap / LOTD_MULTIPLIER) k)
    <= 1.
Proof.
  intros Hb Hc. unfold LOTD_MULTIPLIER.
  assert (Hlc : 100 / 101 <= cap / (101 / 100)).
  { replace (cap / (101 / 100)) with (cap * (100 / 101)) by field. lra. }
  assert (Hlb : 100 / 101 <= base / (101 / 100)).
  { replace (base / (101 / 100)) with (base * (100 / 101)) by field. lra. }
  pose proof (pityRate_lower (100 / 101) (base / (101 / 100)) start
                (cap / (101 / 100)) k Hlb Hlc).
  pose proof (noDropFactor_bounds
                (pityRate (base / (101 / 100)) start (cap / (101 / 100)) k)
                (100 / 101) ltac:(lra) ltac:(lra)) as [H1 H2].
  replace (1 - 1 / (100 / 101)) with (- (1 / 100)) in H1 by field. lra.
Qed.

(** *** Reported probabilities stay in range *)

Lemma zero_is_probability : returnsProbability (Ok 0).
Proof. exists 0. split; [reflexivity | lra]. Qed.

Lemma reported_is_probability (f : Z -> R) (n : nat) :
  (forall k, (1 <= k)%Z -> - (1 / 100) <= f k <= 1) ->
  returnsProbability (Ok (reported (rangeProduct f 1 n))).
Proof.
  intros Hf. eexists; split; [reflexivity |].
  apply (reported_in_range f f 1%Z Hf). intros; lra.
Qed.

Lemma unit_factor_bounds (rate : R) :
  1 <= rate -> - (1 / 100) <= noDropFactor rate <= 1.
Proof.
  intros Hr. pose proof (noDropFactor_bounds rate 1 ltac:(lra) Hr) as [H1 H2].
  replace (1 - 1 / 1) with 0 in H1 by field. lra.
Qed.

Lemma lucky_unit_factor_bounds (rate : R) :
  1 <= rate -> - (1 / 100) <= noDropFactor (rate / LOTD_MULTIPLIER) <= 1.
Proof.
  intros Hr. unfold LOTD_MULTIPLIER.
  assert (Hl : 100 / 101 <= rate / (101 / 100)).
  { replace (rate / (101 / 100)) with (rate * (100 / 101)) by field. lra. }
  pose proof (noDropFactor_bounds _ (100 / 101) ltac:(lra) Hl) as [H1 H2].
  replace (1 - 1 / (100 / 101)) with (- (1 / 100)) in H1 by field. lra.
Qed.

(** C1, amended.  For every trial count [>= 0] and every rate [>= 1] (with
    a pity start [>= 0] and a pity cap [>= 1] where a schedule is given, and
    for the enrage variant whenever the scaled rate is that rate), each of
    the five cumulative-probability functions returns a value in
    [[0, 0.9999]]. *)
Theorem cumulative_probabilities_in_range
  (trials : Z) (rate : R) (start : Z) (cap : R) :
  (0 <= trials)%Z -> 1 <= rate -> (0 <= start)%Z -> 1 <= cap ->
  returnsProbability (calculateCumulativeProbability trials rate) /\
  returnsProbability (calculateCumulativeProbabilityWithLuck trials rate) /\
  returnsProbability (calculateCumulativeProbabilityWithBLM trials rate start cap) /\
  returnsProbability
    (calculateCumulativeProbabilityWithLuckAndBLM trials rate start cap) /\
  (forall boss enrage baseRate,
     calculateEnrageScaledDropRate boss enrage baseRate = Ok rate ->
     returnsProbability
       (calculateCumulativeProbabilityWithEnrage trials boss enrage baseRate)).
Proof.
  intros Ht Hr Hs Hc.
  destruct (Z.eq_dec trials 0) as [-> | Hne].
  - split; [| split; [| split; [| split]]]; try apply zero_is_probability.
    + unfold calculateCumulativeProbabilityWithLuck, applyLuckToDropRate.
      case_R. apply zero_is_probability.
    + intros boss enrage baseRate _. apply zero_is_probability.
  - assert (Hpos : (0 < trials)%Z) by lia.
    split; [| split; [| split; [| split]]].
    + rewrite plain_reported by (assumption || lra).
      apply reported_is_probability. intros; apply unit_factor_bounds; assumption.
    + rewrite luck_reported by (assumption || lra).
      apply reported_is_probability.
      intros; apply lucky_unit_factor_bounds; assumption.
    + rewrite BLM_reported by (assumption || lra).
      apply reported_is_probability. intros k _. apply unit_factor_bounds.
      apply pityRate_lower; assumption.
    + rewrite luckAndBLM_reported by (assumption || lra).
      apply reported_is_probability.
      intros; apply lucky_factor_bounds; assumption.
    + intros boss enrage baseRate Hscaled.
      rewrite (enrage_reported trials boss enrage baseRate rate) by assumption.
      apply reported_is_probability. intros; apply unit_factor_bounds; assumption.
Qed.

(** One hundred kills of a 1/128 drop under the default pity schedule. *)
Lemma cumulative_probabilities_in_range_witness :
  returnsProbability (calculateCumulativeProbability 100 128) /\
  returnsProbability (calculateCumulativeProbabilityWithLuck 100 128) /\
  returnsProbability (calculateCumulativeProbabilityWithBLM 100 128 10 20) /\
  returnsProbability (calculateCumulativeProbabilityWithLuckAndBLM 100 128 10 20) /\
  (forall boss enrage baseRate,
     calculateEnrageScaledDropRate boss enrage baseRate = Ok 128 ->
     returnsProbability
       (calculateCumulativeProbabilityWithEnrage 100 boss enrage baseRate)).
Proof.
  apply (cumulative_probabilities_in_range 100 128 10 20); [lia | lra | lia | lra].
Defined.

(** A positive rate below [1] passes the validation and yields a negative
    value: [1 - (1 - 4)^2 = -8]. *)
Lemma negative_probability_below_rate_one :
  calculateCumulativeProbability 2 (1 / 4) = Ok (-8) /\
  ~ returnsProbability (calculateCumulativeProbability 2 (1 / 4)).
Proof.
  assert (H : calculateCumulativeProbability 2 (1 / 4) = Ok (-8)).
  { rewrite cumulative_closed_form by (lia || lra).
    change (Z.to_nat 2) with 2%nat. unfold MAX_PROBABILITY. f_equal.
    replace (1 - (1 - 1 / (1 / 4)) ^ 2) with (-8) by field.
    apply Rmin_left. lra. }
  split; [exact H |].
  rewrite H. intros (p & Hp & Hrange). injection Hp as <-. lra.
Qed.

(** *** Pity against the plain curve *)

Section PitySchedule.
Variables base cap : R.
Variable start : Z.
Hypothesis start_nonneg : (0 <= start)%Z.
Hypothesis cap_unit : 1 <= cap.
Hypothesis cap_below_base : cap <= base.

Let f (k : Z) : R := noDropFactor (pityRate base start cap k).
Let b : R := noDropFactor base.



End PitySchedule.








(** *** Table-based drops *)

(** C3, amended.  For every valid compound configuration the effective
    rate is never better than either stage alone: it is at least the
    reciprocal of the probability that [calculateTableHitProbability]
    returns for the table and at least the reciprocal of the probability
    that [calculateItemFromTableProbability] returns for the item.  (The
    comparison is with the stage probabilities as the code computes them:
    the product of two values in [(0, 1]] is at most either factor and the
    reciprocal is antitone, which rounding preserves; against the quotients
    [denominator / numerator] and [totalWeight / itemWeight] computed
    directly the rate can be one unit in the last place short.) *)
Theorem table_rate_at_least_stage_rates (n d w t : R) :
  0 < n <= d -> 0 < w <= t ->
  exists tableProb itemProb rate,
    calculateTableHitProbability n d = Ok tableProb /\
    calculateItemFromTableProbability w t = Ok itemProb /\
    calculateTableBasedDropRate n d w t = Ok rate /\
    1 / tableProb <= rate /\
    1 / itemProb <= rate.
Proof.
  intros [Hn Hnd] [Hw Hwt].
  unfold calculateTableBasedDropRate, calculateTableHitProbability,
    calculateItemFromTableProbability.
  case_R. cbn [bind]. do 3 eexists.
  split; [reflexivity |]. split; [reflexivity |]. split; [reflexivity |].
  assert (Ha : 0 < n / d) by (apply Rdiv_lt_0_compat; lra).
  assert (Hb : 0 < w / t) by (apply Rdiv_lt_0_compat; lra).
  assert (Ha1 : n / d <= 1) by (apply div_le_upper; lra).
  assert (Hb1 : w / t <= 1) by (apply div_le_upper; lra).
  assert (Hc : 0 < n / d * (w / t)) by (apply Rmult_lt_0_compat; assumption).
  replace (1 / (n / d)) with (/ (n / d)) by (field; lra).
  replace (1 / (w / t)) with (/ (w / t)) by (field; lra).
  replace (1 / (n / d * (w / t))) with (/ (n / d * (w / t))) by (field; lra).
  split; apply Rinv_le_contravar; try exact Hc; nra.
Qed.

(** Nex, Torva helm: table 6/128, item 2/12. *)
Lemma table_rate_at_least_stage_rates_witness :
  exists tableProb itemProb rate,
    calculateTableHitProbability 6 128 = Ok tableProb /\
    calculateItemFromTableProbability 2 12 = Ok itemProb /\
    calculateTableBasedDropRate 6 128 2 12 = Ok rate /\
    1 / tableProb <= rate /\
    1 / itemProb <= rate.
Proof.
  apply (table_rate_at_least_stage_rates 6 128 2 12); lra.
Defined.

(** Table 6/128, item 5/12: the effective rate 51.2 is below the table
    denominator 128. *)
Lemma table_rate_below_denominator :
  calculateTableBasedDropRate 6 128 5 12 = Ok (256 / 5) /\
  256 / 5 < Rmax 128 12.
Proof.
  split.
  - unfold calculateTableBasedDropRate, calculateTableHitProbability,
      calculateItemFromTableProbability.
    case_R. cbn [bind]. f_equal. field.
  - pose proof (Rmax_l 128 12). lra.
Qed.

(** *** Enrage scaling *)

Lemma enrage_scaled_value (boss : EnrageScalingBoss) (enrage base : R) :
  inDomain boss enrage ->
  calculateEnrageScaledDropRate boss enrage base =
    Ok (base / (1 + enrage / match boss with
                             | telos => 1000
                             | zamorak => 800
                             | arch_glacor => 1200
                             end)).
Proof.
  destruct boss; cbn [inDomain calculateEnrageScaledDropRate]; intros H;
    [unfold calculateTelosDropRate | unfold calculateZamorakDropRate
     | unfold calculateArchGlacorDropRate];
    case_R; reflexivity.
Qed.

Lemma scaling_antitone (base k p1 p2 : R) :
  0 < base -> 0 < k -> 0 <= p1 -> p1 < p2 ->
  base / (1 + p2 / k) <= base / (1 + p1 / k).
Proof.
  intros Hb Hk Hp1 Hlt.
  assert (0 <= p1 / k) by (apply div_le_lower; lra).
  assert (p1 / k <= p2 / k) by (unfold Rdiv; apply Rmult_le_compat_r;
    [left; apply Rinv_0_lt_compat; lra | lra]).
  unfold Rdiv at 1 3. apply Rmult_le_compat_l; [lra |].
  apply Rinv_le_contravar; lra.
Qed.

(** C6.  For every boss and every positive base rate, the scaled rate at
    enrage [0] is the base rate, and on the declared domain of the boss the
    scaled rate does not increase when the enrage increases. *)
Theorem enrage_identity_and_monotone (boss : EnrageScalingBoss) (baseRate : R) :
  0 < baseRate ->
  calculateEnrageScaledDropRate boss 0 baseRate = Ok baseRate /\
  forall p1 p2, inDomain boss p1 -> inDomain boss p2 -> p1 < p2 ->
    exists r1 r2,
      calculateEnrageScaledDropRate boss p1 baseRate = Ok r1 /\
      calculateEnrageScaledDropRate boss p2 baseRate = Ok r2 /\
      r2 <= r1.
Proof.
  intros Hb. split.
  - rewrite enrage_scaled_value by (destruct boss; cbn; lra).
    f_equal. destruct boss; field.
  - intros p1 p2 H1 H2 Hlt. rewrite !enrage_scaled_value by assumption.
    do 2 eexists. split; [reflexivity |]. split; [reflexivity |].
    destruct boss; cbn [inDomain] in H1; apply scaling_antitone; lra.
Qed.

(** Telos at base rate 128. *)
Lemma enrage_identity_and_monotone_witness :
  calculateEnrageScaledDropRate telos 0 128 = Ok 128 /\
  forall p1 p2, inDomain telos p1 -> inDomain telos p2 -> p1 < p2 ->
    exists r1 r2,
      calculateEnrageScaledDropRate telos p1 128 = Ok r1 /\
      calculateEnrageScaledDropRate telos p2 128 = Ok r2 /\
      r2 <= r1.
Proof.
  apply (enrage_identity_and_monotone telos 128). lra.
Defined.

(** *** The pity schedule at a concrete kill *)

(** C7, amended.  At kill 15 with base denominator 128, start 10 and cap
    20 the schedule yields the denominator 123. *)
Theorem pity_rate_at_kill_15 : getDropRateForKill 15 128 10 20 = Ok 123.
Proof.
  rewrite getDropRateForKill_valid by (lia || lra).
  unfold pityRate. change (15 <=? 10)%Z with false. change (15 - 10)%Z with 5%Z.
  f_equal. rewrite Rmax_left by lra. lra.
Qed.

(** The value 124 of the docstring example is not what the code returns. *)
Lemma pity_rate_at_kill_15_is_not_124 : getDropRateForKill 15 128 10 20 <> Ok 124.
Proof.
  rewrite getDropRateForKill_valid by (lia || lra).
  unfold pityRate. change (15 <=? 10)%Z with false. change (15 - 10)%Z with 5%Z.
  rewrite Rmax_left by lra. intros H. injection H as H. lra.
Qed.

Example pity_rate_reaches_cap : getDropRateForKill 118 128 10 20 = Ok 20.
Proof.
  rewrite getDropRateForKill_valid by (lia || lra).
  unfold pityRate. change (118 <=? 10)%Z with false.
  change (118 - 10)%Z with 108%Z. f_equal. rewrite Rmax_left by lra. lra.
Qed.

Example pity_rate_kill_zero_throws :
  getDropRateForKill 0 128 10 20 = Throw "Kill number must be positive"%string.
Proof. reflexivity. Qed.

(** C10.  With zero attempts the result is [0] whatever the rate, also a
    non-positive one: the early return comes before the validation of the
    rate, so nothing is thrown. *)
Theorem zero_attempts_precede_validation (rate : R) :
  calculateCumulativeProbability 0 rate = Ok 0.
Proof. reflexivity. Qed.

(** ** graphDataGenerator.ts *)

Import GraphDataGenerator.
#[local] Open Scope list_scope.
#[local] Open Scope Z_scope.

Lemma ceilDiv_bounds (a b : Z) :
  0 < b -> b * ceilDiv a b - b < a <= b * ceilDiv a b.
Proof.
  intros Hb. unfold ceilDiv.
  pose proof (Z.div_mod (- a) b ltac:(lia)) as Hdm.
  pose proof (Z.mod_pos_bound (- a) b Hb) as Hm.
  nia.
Qed.

Lemma StronglySorted_app_lt (l1 l2 : list Z) (pivot : Z) :
  StronglySorted Z.lt l1 -> StronglySorted Z.lt l2 ->
  Forall (fun x => x < pivot) l1 -> Forall (fun x => pivot <= x) l2 ->
  StronglySorted Z.lt (l1 ++ l2).
Proof.
  intros H1 H2 Hlo Hhi. induction H1 as [| x l1 Hs IH Hx]; cbn [app].
  - exact H2.
  - inversion Hlo as [| ? ? Hxp Hlo']; subst.
    constructor; [apply IH; exact Hlo' |].
    apply Forall_app. split; [exact Hx |].
    eapply Forall_impl; [| exact Hhi]. cbn. intros y Hy. lia.
Qed.

Lemma StronglySorted_lt_NoDup (l : list Z) : StronglySorted Z.lt l -> NoDup l.
Proof.
  induction 1 as [| x l Hs IH Hx]; constructor; [| exact IH].
  intros Hin. rewrite Forall_forall in Hx. specialize (Hx x Hin). lia.
Qed.

Section PushLoop.
Variables step maxAttempts : Z.
Hypothesis step_positive : 0 < step.

Lemma pushLoop_result (fuel : nat) : forall (i : Z) (attempts : list Z),
  (Z.to_nat (maxAttempts - i) < fuel)%nat ->
  exists pushed,
    pushLoop fuel step maxAttempts i attempts = Some (attempts ++ pushed) /\
    StronglySorted Z.lt pushed /\
    Forall (fun x => i <= x < maxAttempts) pushed /\
    (pushed <> [] -> i + (Z.of_nat (List.length pushed) - 1) * step < maxAttempts).
Proof.
  induction fuel as [| fuel IH]; intros i attempts Hfuel; [lia |].
  cbn [pushLoop]. destruct (Z.ltb_spec i maxAttempts) as [Hlt | Hge].
  - destruct (IH (i + step) (attempts ++ [i]) ltac:(lia))
      as (pushed & Hrun & Hsorted & Hall & Hlen).
    exists (i :: pushed). rewrite Hrun, <- app_assoc. cbn [app].
    split; [reflexivity |]. split; [| split].
    + constructor; [exact Hsorted |].
      eapply Forall_impl; [| exact Hall]. cbn. intros x Hx. lia.
    + constructor; [lia |].
      eapply Forall_impl; [| exact Hall]. cbn. intros x Hx. lia.
    + intros _. cbn [List.length]. destruct pushed as [| x pushed'].
      * cbn. lia.
      * specialize (Hlen ltac:(discriminate)). cbn [List.length] in *. nia.
  - exists []. rewrite app_nil_r. repeat split; try constructor.
    intros H. contradiction.
Qed.
End PushLoop.

Lemma pushMax_last (maxAttempts : Z) (attempts : list Z) :
  last (pushMax maxAttempts attempts) 0 = maxAttempts.
Proof.
  unfold pushMax. destruct (Z.eqb_spec (last attempts 0) maxAttempts) as [H | H];
    [exact H | apply last_last].
Qed.

(** C9.  For [maxTrials >= 1] and [maxPoints >= 2], given fuel for
    [maxTrials] iterations, [generateAttemptValues] returns a strictly
    ascending sequence, hence without duplicates, that starts at [0], ends at
    [maxTrials] and has at most [maxPoints + 1] elements. *)
Theorem sample_values_shape (fuel : nat) (maxTrials maxPoints : Z) :
  1 <= maxTrials -> 2 <= maxPoints -> (Z.to_nat maxTrials <= fuel)%nat ->
  exists values,
    generateAttemptValues fuel maxTrials maxPoints = Some values /\
    StronglySorted Z.lt values /\
    NoDup values /\
    hd_error values = Some 0 /\
    last values 0 = maxTrials /\
    Z.of_nat (List.length values) <= maxPoints + 1.
Proof.
  intros Hmax Hpoints Hfuel. unfold generateAttemptValues.
  destruct (Z.eqb_spec (maxPoints - 1) 0) as [H0 | _]; [lia |].
  set (step := ceilDiv maxTrials (maxPoints - 1)).
  pose proof (ceilDiv_bounds maxTrials (maxPoints - 1) ltac:(lia)) as Hstep.
  fold step in Hstep.
  assert (Hpos : 0 < step) by nia.
  destruct (pushLoop_result step maxTrials Hpos fuel step [0] ltac:(lia))
    as (pushed & Hrun & Hsorted & Hall & Hlen).
  rewrite Hrun. eexists. split; [reflexivity |].
  assert (Hbody : StronglySorted Z.lt ([0] ++ pushed)).
  { apply (StronglySorted_app_lt [0] pushed step).
    - repeat constructor.
    - exact Hsorted.
    - repeat constructor. exact Hpos.
    - eapply Forall_impl; [| exact Hall]. cbn. intros x Hx. lia. }
  assert (Hbelow : Forall (fun x => x < maxTrials) ([0] ++ pushed)).
  { apply Forall_app. split; [repeat constructor; lia |].
    eapply Forall_impl; [| exact Hall]. cbn. intros x Hx. lia. }
  assert (Hcount : Z.of_nat (List.length pushed) <= maxPoints - 1).
  { destruct pushed as [| x pushed']; [cbn; lia |].
    specialize (Hlen ltac:(discriminate)). nia. }
  assert (Hfinal : StronglySorted Z.lt (pushMax maxTrials ([0] ++ pushed))).
  { unfold pushMax. destruct (last ([0] ++ pushed) 0 =? maxTrials); [exact Hbody |].
    apply (StronglySorted_app_lt _ [maxTrials] maxTrials);
      [exact Hbody | repeat constructor | exact Hbelow | repeat constructor; lia]. }
  split; [exact Hfinal |]. split; [apply StronglySorted_lt_NoDup; exact Hfinal |].
  split; [| split; [apply pushMax_last |]].
  - unfold pushMax. destruct (last ([0] ++ pushed) 0 =? maxTrials); reflexivity.
  - unfold pushMax. destruct (last ([0] ++ pushed) 0 =? maxTrials);
      rewrite ?length_app; cbn [List.length]; lia.
Qed.

(** Ten trials sampled at four points. *)
Lemma sample_values_shape_witness :
  exists values,
    generateAttemptValues 10 10 4 = Some values /\
    StronglySorted Z.lt values /\
    NoDup values /\
    hd_error values = Some 0 /\
    last values 0 = 10 /\
    Z.of_nat (List.length values) <= 4 + 1.
Proof.
  apply (sample_values_shape 10 10 4); [lia | lia | vm_compute; lia].
Defined.

(** Why the loop carries fuel: with zero data points the step is negative
    and the loop variable never reaches [maxAttempts]. *)
Lemma pushLoop_negative_step (fuel : nat) : forall (i : Z) (attempts : list Z),
  i < 5 -> pushLoop fuel (-5) 5 i attempts = None.
Proof.
  induction fuel as [| fuel IH]; intros i attempts Hi; [reflexivity |].
  cbn [pushLoop]. destruct (Z.ltb_spec i 5); [| lia]. apply IH. lia.
Qed.

Example sample_values_never_finish (fuel : nat) :
  generateAttemptValues fuel 5 0 = None.
Proof.
  unfold generateAttemptValues. cbn [Z.sub Z.add Z.opp Z.eqb Z.pos_sub].
  change (ceilDiv 5 (-1)) with (-5).
  rewrite pushLoop_negative_step by lia. reflexivity.
Qed.

Example sample_values_10_4 : generateAttemptValues 10 10 4 = Some [0; 4; 8; 10].
Proof. reflexivity. Qed.

(** * Further properties of the engine *)

#[local] Open Scope R_scope.

(** ** Further properties of dropRate.ts *)

Lemma exp_pow (x : R) (n : nat) : exp x ^ n = exp (INR n * x).
Proof.
  induction n as [| n IH].
  - cbn [pow INR]. rewrite Rmult_0_l, exp_0. reflexivity.
  - rewrite <- tech_pow_Rmult, IH, S_INR, <- exp_plus. f_equal. ring.
Qed.

Lemma exp_monotone (x y : R) : x <= y -> exp x <= exp y.
Proof.
  intros [H | ->]; [left; apply exp_increasing; exact H | right; reflexivity].
Qed.

Lemma exp_ten_large : 10000 < exp 10.
Proof.
  assert (Hstep : 9 / 8 <= exp (1 / 8)).
  { pose proof (exp_ineq1_le (1 / 8)). lra. }
  replace 10 with (INR 80 * (1 / 8)) by (cbn [INR]; lra).
  rewrite <- exp_pow.
  apply Rlt_le_trans with ((9 / 8) ^ 80); [| apply pow_incr; lra].
  replace 10000 with (10000 / 1) by lra.
  apply (pow_ratio_gt 9 8 10000 1 80); [lia | lia |].
  vm_compute. congruence.
Qed.

(** After ten times the rate in trials, no more than one chance in ten
    thousand of staying dry is left. *)
Lemma dry_streak_bound (rate : R) (n : nat) :
  1 <= rate -> 10 * rate <= INR n -> (1 - 1 / rate) ^ n <= 1 / 10000.
Proof.
  intros Hr Hn.
  assert (Hinv : 0 < 1 / rate <= 1).
  { split; [apply Rdiv_lt_0_compat; lra | apply div_le_upper; lra]. }
  assert (Hq : 0 <= 1 - 1 / rate <= exp (- (1 / rate))).
  { pose proof (exp_ineq1_le (- (1 / rate))). lra. }
  apply Rle_trans with (exp (- (1 / rate)) ^ n); [apply pow_incr; exact Hq |].
  rewrite exp_pow.
  assert (Hten : 10 <= INR n * (1 / rate)).
  { replace (INR n * (1 / rate)) with (INR n / rate) by (field; lra).
    apply div_le_lower; lra. }
  replace (INR n * - (1 / rate)) with (- (INR n * (1 / rate))) by ring.
  rewrite exp_Ropp.
  pose proof exp_ten_large as Hbig.
  pose proof (exp_monotone 10 (INR n * (1 / rate)) Hten) as Hmono.
  replace (1 / 10000) with (/ 10000) by lra.
  apply Rinv_le_contravar; lra.
Qed.

Lemma nat_of_trials (n : Z) : (0 <= n)%Z -> INR (Z.to_nat n) = IZR n.
Proof. intros Hn. rewrite INR_IZR_INZ, Z2Nat.id by exact Hn. reflexivity. Qed.

(** X1.  For a rate in [[1, 10^6]], from ten times the rate in trials on the
    plain cumulative probability is exactly the cap [0.9999]: the bound that
    makes the upper end of the binary searches sufficient.  (The chance of no
    drop is then below [exp (-10)], less than half of [0.0001]; rates so
    large that [1 - 1/rate] is within rounding of [1] are left out.) *)
Theorem plain_curve_saturates (trials : Z) (rate : R) :
  1 <= rate <= 1000000 -> 10 * rate <= IZR trials ->
  calculateCumulativeProbability trials rate = Ok (9999 / 10000).
Proof.
  intros [Hr _] Hn.
  assert (Hpos : (0 < trials)%Z) by (apply lt_IZR; lra).
  rewrite cumulative_closed_form by (assumption || lra).
  unfold MAX_PROBABILITY. f_equal. apply Rmin_right.
  pose proof (dry_streak_bound rate (Z.to_nat trials) Hr) as H.
  rewrite nat_of_trials in H by lia. specialize (H Hn). lra.
Qed.

Lemma plain_curve_saturates_witness :
  calculateCumulativeProbability 100000 10 = Ok (9999 / 10000).
Proof. apply (plain_curve_saturates 100000 10); lra. Defined.

(** *** Monotonicity in the number of trials *)

Section Decreasing.
Variable f : Z -> R.
Hypothesis f_unit : forall k, (1 <= k)%Z -> 0 <= f k <= 1.

Lemma rangeProduct_unit (n : nat) : 0 <= rangeProduct f 1 n <= 1.
Proof.
  induction n as [| n IH]; [cbn [rangeProduct]; lra |].
  rewrite rangeProduct_snoc.
  pose proof (f_unit (1 + Z.of_nat n)%Z ltac:(lia)). split; nra.
Qed.

Lemma rangeProduct_decreasing (n m : nat) :
  (n <= m)%nat -> rangeProduct f 1 m <= rangeProduct f 1 n.
Proof.
  induction 1 as [| m Hle IH]; [lra |].
  rewrite rangeProduct_snoc.
  pose proof (f_unit (1 + Z.of_nat m)%Z ltac:(lia)).
  pose proof (rangeProduct_unit m). nra.
Qed.

Lemma reported_increasing (n m : nat) :
  (n <= m)%nat ->
  reported (rangeProduct f 1 n) <= reported (rangeProduct f 1 m).
Proof.
  intros H. unfold reported. pose proof (rangeProduct_decreasing n m H).
  apply Rmin_glb; [| apply Rmin_r].
  pose proof (Rmin_l (1 - rangeProduct f 1 n) (9999 / 10000)). lra.
Qed.

Lemma reported_nonneg (n : nat) : 0 <= reported (rangeProduct f 1 n).
Proof.
  unfold reported. pose proof (rangeProduct_unit n). apply Rmin_glb; lra.
Qed.
End Decreasing.

Lemma plain_factor_unit (rate : R) : 1 <= rate -> 0 <= noDropFactor rate <= 1.
Proof.
  intros Hr. pose proof (noDropFactor_bounds rate 1 ltac:(lra) Hr) as [H1 H2].
  replace (1 - 1 / 1) with 0 in H1 by field. lra.
Qed.

Lemma pity_factor_unit (base : R) (start : Z) (cap : R) (k : Z) :
  1 <= base -> 1 <= cap -> 0 <= noDropFactor (pityRate base start cap k) <= 1.
Proof.
  intros Hb Hc. apply plain_factor_unit. apply pityRate_lower; assumption.
Qed.

Lemma plain_curve (n : Z) (rate : R) :
  (0 < n)%Z -> 0 < rate ->
  calculateCumulativeProbability n rate = Ok (curve (plainFactor rate) n).
Proof. apply plain_reported. Qed.

Lemma pity_curve (n : Z) (base : R) (start : Z) (cap : R) :
  (0 < n)%Z -> 0 < base -> (0 <= start)%Z -> 0 < cap ->
  calculateCumulativeProbabilityWithBLM n base start cap
  = Ok (curve (pityFactor base start cap) n).
Proof. apply BLM_reported. Qed.

Lemma lucky_pity_curve (n : Z) (base : R) (start : Z) (cap : R) :
  (0 < n)%Z -> 0 < base -> (0 <= start)%Z -> 0 < cap ->
  calculateCumulativeProbabilityWithLuckAndBLM n base start cap
  = Ok (curve (luckyPityFactor base start cap) n).
Proof. apply luckAndBLM_reported. Qed.

Lemma curve_increasing (f : Z -> R) (n m : Z) :
  (forall k, (1 <= k)%Z -> 0 <= f k <= 1) ->
  (0 <= n <= m)%Z -> curve f n <= curve f m.
Proof.
  intros Hf Hnm. unfold curve. apply reported_increasing; [exact Hf | lia].
Qed.

Lemma curve_dominates (f g : Z -> R) (n : Z) :
  (forall k, (1 <= k)%Z -> - (1 / 100) <= f k <= 1) ->
  (forall k, (1 <= k)%Z -> f k <= g k) ->
  curve g n <= curve f n.
Proof. intros Hf Hfg. unfold curve. apply reported_dominates; assumption. Qed.

Lemma curve_range (f : Z -> R) (n : Z) :
  (forall k, (1 <= k)%Z -> - (1 / 100) <= f k <= 1) ->
  0 <= curve f n <= 9999 / 10000.
Proof.
  intros Hf. unfold curve. apply (reported_in_range f f 1%Z Hf). intros; lra.
Qed.

Lemma plain_curve_full (rate : R) (n : Z) :
  1 <= rate -> 10 * rate <= IZR n -> curve (plainFactor rate) n = 9999 / 10000.
Proof.
  intros Hr Hn. assert (Hpos : (0 < n)%Z) by (apply lt_IZR; lra).
  unfold curve, plainFactor. rewrite rangeProduct_const.
  unfold reported. apply Rmin_right.
  pose proof (dry_streak_bound rate (Z.to_nat n) Hr) as H.
  rewrite nat_of_trials in H by lia. specialize (H Hn).
  unfold noDropFactor. lra.
Qed.

Lemma pity_below_plain (base : R) (start : Z) (cap : R) (k : Z) :
  1 <= cap <= base -> pityFactor base start cap k <= plainFactor base k.
Proof.
  intros [Hc Hb]. unfold pityFactor, plainFactor. apply noDropFactor_monotone.
  - pose proof (pityRate_lower 1 base start cap k ltac:(lra) Hc). lra.
  - apply pityRate_upper. exact Hb.
Qed.

Lemma luck_divides (x : R) : x / LOTD_MULTIPLIER = x * (100 / 101).
Proof. unfold LOTD_MULTIPLIER. field. Qed.

Lemma lucky_pity_rate_floor (base : R) (start : Z) (cap : R) (k : Z) (lo : R) :
  lo * (101 / 100) <= cap <= base ->
  lo <= pityRate (base / LOTD_MULTIPLIER) start (cap / LOTD_MULTIPLIER) k.
Proof.
  intros [Hc Hb]. apply pityRate_lower; rewrite luck_divides; lra.
Qed.

Lemma lucky_pity_below_plain (base : R) (start : Z) (cap : R) (k : Z) :
  1 <= cap <= base -> luckyPityFactor base start cap k <= plainFactor base k.
Proof.
  intros [Hc Hb]. unfold luckyPityFactor, plainFactor.
  apply noDropFactor_monotone.
  - pose proof (lucky_pity_rate_floor base start cap k (100 / 101)
                  ltac:(lra)). lra.
  - eapply Rle_trans.
    + apply pityRate_upper. rewrite !luck_divides. lra.
    + rewrite luck_divides. lra.
Qed.

Lemma lucky_pity_factor_unit (base : R) (start : Z) (cap : R) (k : Z) :
  101 / 100 <= cap <= base -> 0 <= luckyPityFactor base start cap k <= 1.
Proof.
  intros H. unfold luckyPityFactor. apply plain_factor_unit.
  apply lucky_pity_rate_floor. lra.
Qed.

(** *** The binary search *)

Lemma Zceil_IZR (z : Z) : Zceil (IZR z) = z.
Proof. apply Zceil_eq. lra. Qed.

Lemma midpoint_between (low : Z) (high : R) :
  IZR low < high ->
  (low <= Zfloor ((IZR low + high) / 2))%Z /\
  IZR (Zfloor ((IZR low + high) / 2)) < high.
Proof.
  intros H. split.
  - apply Zfloor_lub. lra.
  - pose proof (Zfloor_bound ((IZR low + high) / 2)). lra.
Qed.

Lemma below_ceiling (z : Z) (x : R) : IZR z < x -> (z < Zceil x)%Z.
Proof.
  intros H. apply lt_IZR. pose proof (Zceil_bound x). lra.
Qed.

Section Search.
Variable probe : Z -> result R.
Variable p : Z -> R.
Variable target : R.
Hypothesis probe_value : forall m, (1 <= m)%Z -> probe m = Ok (p m).
Hypothesis p_increasing : forall m m', (1 <= m <= m')%Z -> p m <= p m'.

Lemma milestoneSearch_least (fuel : nat) : forall (low : Z) (high : R),
  (1 <= low)%Z ->
  (Z.to_nat (Zceil high - low) < fuel)%nat ->
  (forall m, (1 <= m < low)%Z -> p m < target) ->
  (forall m, (1 <= m)%Z -> high <= IZR m -> target <= p m) ->
  exists n,
    milestoneSearch probe target fuel low high = Some (Ok n) /\
    (low <= n)%Z /\
    target <= p n /\
    (forall m, (1 <= m < n)%Z -> p m < target).
Proof.
  induction fuel as [| fuel IH]; intros low high Hlow Hfuel Hbelow Habove;
    [lia |].
  cbn [milestoneSearch]. destruct (Rlt_dec (IZR low) high) as [Hlt | Hge].
  - destruct (midpoint_between low high Hlt) as [Hmid1 Hmid2].
    set (mid := Zfloor ((IZR low + high) / 2)) in *.
    pose proof (below_ceiling mid high Hmid2) as Hceil.
    rewrite probe_value by lia.
    destruct (Rlt_dec (p mid) target) as [Hp | Hp].
    + destruct (IH (mid + 1)%Z high ltac:(lia) ltac:(lia)) as (n & Hn);
        [| exact Habove | exists n; intuition lia].
      intros m Hm. apply Rle_lt_trans with (p mid); [| exact Hp].
      apply p_increasing. lia.
    + destruct (IH low (IZR mid) Hlow) as (n & Hn);
        [rewrite Zceil_IZR; lia | exact Hbelow | | exists n; exact Hn].
      intros m Hm Hle. apply le_IZR in Hle.
      apply Rle_trans with (p mid); [lra | apply p_increasing; lia].
  - exists low. split; [reflexivity |]. split; [lia |].
    split; [apply Habove; [exact Hlow | lra] | exact Hbelow].
Qed.

End Search.

Lemma curve_zero (f : Z -> R) : curve f 0 = 0.
Proof.
  unfold curve, reported. cbn [Z.to_nat rangeProduct].
  replace (1 - 1) with 0 by lra. apply Rmin_left. lra.
Qed.

Lemma plain_curve_from_zero (n : Z) (rate : R) :
  (0 <= n)%Z -> 0 < rate ->
  calculateCumulativeProbability n rate = Ok (curve (plainFactor rate) n).
Proof.
  intros Hn Hr. destruct (Z.eq_dec n 0) as [-> | Hne].
  - rewrite curve_zero. reflexivity.
  - apply plain_curve; [lia | exact Hr].
Qed.

Lemma pity_curve_from_zero (n : Z) (base : R) (start : Z) (cap : R) :
  (0 <= n)%Z -> 0 < base -> (0 <= start)%Z -> 0 < cap ->
  calculateCumulativeProbabilityWithBLM n base start cap
  = Ok (curve (pityFactor base start cap) n).
Proof.
  intros Hn Hb Hs Hc. destruct (Z.eq_dec n 0) as [-> | Hne].
  - rewrite curve_zero. reflexivity.
  - apply pity_curve; (lia || assumption).
Qed.

Lemma lucky_pity_curve_from_zero (n : Z) (base : R) (start : Z) (cap : R) :
  (0 <= n)%Z -> 0 < base -> (0 <= start)%Z -> 0 < cap ->
  calculateCumulativeProbabilityWithLuckAndBLM n base start cap
  = Ok (curve (luckyPityFactor base start cap) n).
Proof.
  intros Hn Hb Hs Hc. destruct (Z.eq_dec n 0) as [-> | Hne].
  - rewrite curve_zero. reflexivity.
  - apply lucky_pity_curve; (lia || assumption).
Qed.

Lemma luck_curve_from_zero (n : Z) (base : R) :
  (0 <= n)%Z -> 0 < base ->
  calculateCumulativeProbabilityWithLuck n base
  = Ok (curve (plainFactor (base / LOTD_MULTIPLIER)) n).
Proof.
  intros Hn Hb. unfold calculateCumulativeProbabilityWithLuck, applyLuckToDropRate.
  case_R. cbn [bind]. apply plain_curve_from_zero; [exact Hn |].
  rewrite luck_divides. lra.
Qed.

(** X2.  For a rate [>= 1.01], the plain curve and the luck curve never decrease
    when the number of trials grows. *)
Theorem plain_and_luck_curves_monotone (n m : Z) (rate : R) :
  (0 <= n <= m)%Z -> 101 / 100 <= rate ->
  (exists p q,
     calculateCumulativeProbability n rate = Ok p /\
     calculateCumulativeProbability m rate = Ok q /\ p <= q) /\
  (exists p q,
     calculateCumulativeProbabilityWithLuck n rate = Ok p /\
     calculateCumulativeProbabilityWithLuck m rate = Ok q /\ p <= q).
Proof.
  intros Hnm Hr. split.
  - rewrite !plain_curve_from_zero by (lia || lra).
    do 2 eexists. split; [reflexivity |]. split; [reflexivity |].
    apply curve_increasing; [| exact Hnm].
    intros k _. apply plain_factor_unit. lra.
  - rewrite !luck_curve_from_zero by (lia || lra).
    do 2 eexists. split; [reflexivity |]. split; [reflexivity |].
    apply curve_increasing; [| exact Hnm].
    intros k _. apply plain_factor_unit. rewrite luck_divides. lra.
Qed.

Lemma plain_and_luck_curves_monotone_witness :
  (exists p q,
     calculateCumulativeProbability 50 128 = Ok p /\
     calculateCumulativeProbability 100 128 = Ok q /\ p <= q) /\
  (exists p q,
     calculateCumulativeProbabilityWithLuck 50 128 = Ok p /\
     calculateCumulativeProbabilityWithLuck 100 128 = Ok q /\ p <= q).
Proof. apply (plain_and_luck_curves_monotone 50 100 128); [lia | lra]. Defined.

(** X3.  For [1.01 <= cap <= base] and a start [>= 0], the pity curve and the
    curve with both modifiers never decrease when the number of trials
    grows. *)
Theorem pity_curves_monotone (n m : Z) (base : R) (start : Z) (cap : R) :
  (0 <= n <= m)%Z -> (0 <= start)%Z -> 101 / 100 <= cap <= base ->
  (exists p q,
     calculateCumulativeProbabilityWithBLM n base start cap = Ok p /\
     calculateCumulativeProbabilityWithBLM m base start cap = Ok q /\ p <= q) /\
  (exists p q,
     calculateCumulativeProbabilityWithLuckAndBLM n base start cap = Ok p /\
     calculateCumulativeProbabilityWithLuckAndBLM m base start cap = Ok q /\
     p <= q).
Proof.
  intros Hnm Hs Hc. split.
  - rewrite !pity_curve_from_zero by (lia || lra).
    do 2 eexists. split; [reflexivity |]. split; [reflexivity |].
    apply curve_increasing; [| exact Hnm].
    intros k _. apply pity_factor_unit; lra.
  - rewrite !lucky_pity_curve_from_zero by (lia || lra).
    do 2 eexists. split; [reflexivity |]. split; [reflexivity |].
    apply curve_increasing; [| exact Hnm].
    intros k _. apply lucky_pity_factor_unit; lra.
Qed.

Lemma pity_curves_monotone_witness :
  (exists p q,
     calculateCumulativeProbabilityWithBLM 50 128 10 20 = Ok p /\
     calculateCumulativeProbabilityWithBLM 100 128 10 20 = Ok q /\ p <= q) /\
  (exists p q,
     calculateCumulativeProbabilityWithLuckAndBLM 50 128 10 20 = Ok p /\
     calculateCumulativeProbabilityWithLuckAndBLM 100 128 10 20 = Ok q /\
     p <= q).
Proof. apply (pity_curves_monotone 50 100 128 10 20); [lia | lia | lra]. Defined.

(** *** The binary-search milestones *)

Lemma pity_curve_full (base : R) (start : Z) (cap : R) (m : Z) :
  1 <= cap <= base -> base * 10 <= IZR m ->
  9999 / 10000 <= curve (pityFactor base start cap) m.
Proof.
  intros Hc Hm. rewrite <- (plain_curve_full base m) by lra.
  apply curve_dominates.
  - intros k _. unfold pityFactor.
    pose proof (pity_factor_unit base start cap k ltac:(lra) ltac:(lra)). lra.
  - intros k _. apply pity_below_plain. exact Hc.
Qed.

Lemma lucky_pity_factor_bounds (base : R) (start : Z) (cap : R) (k : Z) :
  1 <= cap <= base -> - (1 / 100) <= luckyPityFactor base start cap k <= 1.
Proof. intros [Hc Hb]. apply lucky_factor_bounds; lra. Qed.

Lemma lucky_pity_curve_full (base : R) (start : Z) (cap : R) (m : Z) :
  1 <= cap <= base -> base * 10 <= IZR m ->
  9999 / 10000 <= curve (luckyPityFactor base start cap) m.
Proof.
  intros Hc Hm. rewrite <- (plain_curve_full base m) by lra.
  apply curve_dominates.
  - intros k _. apply lucky_pity_factor_bounds. exact Hc.
  - intros k _. apply lucky_pity_below_plain. exact Hc.
Qed.

Lemma search_fuel (base : R) (fuel : nat) :
  1 <= base -> (Z.to_nat (Zceil (base * 10)) <= fuel)%nat ->
  (Z.to_nat (Zceil (base * 10) - 1) < fuel)%nat.
Proof.
  intros Hb Hf.
  assert ((1 < Zceil (base * 10))%Z).
  { apply lt_IZR. pose proof (Zceil_bound (base * 10)). lra. }
  lia.
Qed.

Lemma pity_milestone_count
  (fuel : nat) (target base : R) (start : Z) (cap : R) :
  0 < target <= 9999 / 10000 -> (0 <= start)%Z -> 1 <= cap <= base ->
  (Z.to_nat (Zceil (base * 10)) <= fuel)%nat ->
  exists found,
    findMilestoneAttemptsWithBLM fuel target base start cap = Some (Ok found) /\
    (1 <= found)%Z /\
    target <= curve (pityFactor base start cap) found /\
    (forall m, (1 <= m < found)%Z ->
       curve (pityFactor base start cap) m < target).
Proof.
  intros Ht Hs Hc Hfuel. unfold findMilestoneAttemptsWithBLM. case_R.
  apply (milestoneSearch_least
           (fun mid => calculateCumulativeProbabilityWithBLM mid base start cap)
           (curve (pityFactor base start cap)) target).
  - intros m Hm. apply pity_curve; (lia || lra).
  - intros m m' Hm. apply curve_increasing; [| lia].
    intros k _. apply pity_factor_unit; lra.
  - lia.
  - apply search_fuel; [lra | exact Hfuel].
  - intros m Hm. lia.
  - intros m Hm Hhigh.
    pose proof (pity_curve_full base start cap m Hc Hhigh). lra.
Qed.

(** X4.  For a target in [(0, 0.9999]], a start [>= 0] and [1 <= cap <= base],
    the binary search of [findMilestoneAttemptsWithBLM] ends (given fuel for
    [ceil (10 * base)] steps) on the least count [n >= 1] whose pity
    probability reaches the target. *)
Theorem pity_milestone_least
  (fuel : nat) (target base : R) (start : Z) (cap : R) :
  0 < target <= 9999 / 10000 -> (0 <= start)%Z -> 1 <= cap <= base ->
  (Z.to_nat (Zceil (base * 10)) <= fuel)%nat ->
  exists n,
    findMilestoneAttemptsWithBLM fuel target base start cap = Some (Ok n) /\
    (1 <= n)%Z /\
    (exists p,
       calculateCumulativeProbabilityWithBLM n base start cap = Ok p /\
       target <= p) /\
    (forall m, (1 <= m < n)%Z ->
       exists p',
         calculateCumulativeProbabilityWithBLM m base start cap = Ok p' /\
         p' < target).
Proof.
  intros Ht Hs Hc Hfuel.
  destruct (pity_milestone_count fuel target base start cap Ht Hs Hc Hfuel)
    as (found & Hrun & Hlow & Hmeet & Hleast).
  exists found. split; [exact Hrun |]. split; [exact Hlow |]. split.
  - exists (curve (pityFactor base start cap) found).
    split; [apply pity_curve; (lia || lra) | exact Hmeet].
  - intros m Hm. exists (curve (pityFactor base start cap) m).
    split; [apply pity_curve; (lia || lra) | apply Hleast; exact Hm].
Qed.

Lemma pity_milestone_least_witness :
  exists n,
    findMilestoneAttemptsWithBLM 1280 (1 / 2) 128 10 20 = Some (Ok n) /\
    (1 <= n)%Z /\
    (exists p,
       calculateCumulativeProbabilityWithBLM n 128 10 20 = Ok p /\
       1 / 2 <= p) /\
    (forall m, (1 <= m < n)%Z ->
       exists p',
         calculateCumulativeProbabilityWithBLM m 128 10 20 = Ok p' /\
         p' < 1 / 2).
Proof.
  apply (pity_milestone_least 1280 (1 / 2) 128 10 20); [lra | lia | lra |].
  replace (128 * 10) with (IZR 1280) by lra. rewrite Zceil_IZR. lia.
Defined.

Lemma lucky_pity_milestone_count
  (fuel : nat) (target base : R) (start : Z) (cap : R) :
  0 < target <= 9999 / 10000 -> (0 <= start)%Z -> 101 / 100 <= cap <= base ->
  (Z.to_nat (Zceil (base * 10)) <= fuel)%nat ->
  exists found,
    findMilestoneAttemptsWithLuckAndBLM fuel target base start cap
    = Some (Ok found) /\
    (1 <= found)%Z /\
    target <= curve (luckyPityFactor base start cap) found /\
    (forall m, (1 <= m < found)%Z ->
       curve (luckyPityFactor base start cap) m < target).
Proof.
  intros Ht Hs Hc Hfuel. unfold findMilestoneAttemptsWithLuckAndBLM. case_R.
  apply (milestoneSearch_least
           (fun mid =>
              calculateCumulativeProbabilityWithLuckAndBLM mid base start cap)
           (curve (luckyPityFactor base start cap)) target).
  - intros m Hm. apply lucky_pity_curve; (lia || lra).
  - intros m m' Hm. apply curve_increasing; [| lia].
    intros k _. apply lucky_pity_factor_unit; lra.
  - lia.
  - apply search_fuel; [lra | exact Hfuel].
  - intros m Hm. lia.
  - intros m Hm Hhigh.
    pose proof (lucky_pity_curve_full base start cap m ltac:(lra) Hhigh). lra.
Qed.

(** X5.  The same for [findMilestoneAttemptsWithLuckAndBLM], for
    [1.01 <= cap <= base]: it returns the least count whose probability with
    both modifiers reaches the target. *)
Theorem lucky_pity_milestone_least
  (fuel : nat) (target base : R) (start : Z) (cap : R) :
  0 < target <= 9999 / 10000 -> (0 <= start)%Z -> 101 / 100 <= cap <= base ->
  (Z.to_nat (Zceil (base * 10)) <= fuel)%nat ->
  exists n,
    findMilestoneAttemptsWithLuckAndBLM fuel target base start cap
    = Some (Ok n) /\
    (1 <= n)%Z /\
    (exists p,
       calculateCumulativeProbabilityWithLuckAndBLM n base start cap = Ok p /\
       target <= p) /\
    (forall m, (1 <= m < n)%Z ->
       exists p',
         calculateCumulativeProbabilityWithLuckAndBLM m base start cap = Ok p' /\
         p' < target).
Proof.
  intros Ht Hs Hc Hfuel.
  destruct (lucky_pity_milestone_count fuel target base start cap Ht Hs Hc Hfuel)
    as (found & Hrun & Hlow & Hmeet & Hleast).
  exists found. split; [exact Hrun |]. split; [exact Hlow |]. split.
  - exists (curve (luckyPityFactor base start cap) found).
    split; [apply lucky_pity_curve; (lia || lra) | exact Hmeet].
  - intros m Hm. exists (curve (luckyPityFactor base start cap) m).
    split; [apply lucky_pity_curve; (lia || lra) | apply Hleast; exact Hm].
Qed.

Lemma lucky_pity_milestone_least_witness :
  exists n,
    findMilestoneAttemptsWithLuckAndBLM 1280 (1 / 2) 128 10 20 = Some (Ok n) /\
    (1 <= n)%Z /\
    (exists p,
       calculateCumulativeProbabilityWithLuckAndBLM n 128 10 20 = Ok p /\
       1 / 2 <= p) /\
    (forall m, (1 <= m < n)%Z ->
       exists p',
         calculateCumulativeProbabilityWithLuckAndBLM m 128 10 20 = Ok p' /\
         p' < 1 / 2).
Proof.
  apply (lucky_pity_milestone_least 1280 (1 / 2) 128 10 20); [lra | lia | lra |].
  replace (128 * 10) with (IZR 1280) by lra. rewrite Zceil_IZR. lia.
Defined.



(** X7.  The two binary searches validate the target only: with a base
    denominator [<= 0] the loop is skipped and [1] is returned, although the
    curve itself throws at one attempt. *)
Theorem pity_milestone_skips_base_validation
  (fuel : nat) (target base : R) (start : Z) (cap : R) :
  0 < target < 1 -> base <= 0 ->
  findMilestoneAttemptsWithBLM (S fuel) target base start cap = Some (Ok 1%Z) /\
  findMilestoneAttemptsWithLuckAndBLM (S fuel) target base start cap
  = Some (Ok 1%Z) /\
  exists msg,
    calculateCumulativeProbabilityWithBLM 1 base start cap = Throw msg.
Proof.
  intros Ht Hb. split; [| split].
  - unfold findMilestoneAttemptsWithBLM. case_R. cbn [milestoneSearch].
    case_R. reflexivity.
  - unfold findMilestoneAttemptsWithLuckAndBLM. case_R. cbn [milestoneSearch].
    case_R. reflexivity.
  - unfold calculateCumulativeProbabilityWithBLM.
    change (1 <? 0)%Z with false. change (1 =? 0)%Z with false.
    change (Z.to_nat 1) with 1%nat. cbn [killLoop].
    unfold getDropRateForKill. change (1 <=? 0)%Z with false.
    case_R. cbn [bind]. eexists. reflexivity.
Qed.

Lemma pity_milestone_skips_base_validation_witness :
  findMilestoneAttemptsWithBLM 1 (1 / 2) (-5) 10 20 = Some (Ok 1%Z) /\
  findMilestoneAttemptsWithLuckAndBLM 1 (1 / 2) (-5) 10 20 = Some (Ok 1%Z) /\
  exists msg,
    calculateCumulativeProbabilityWithBLM 1 (-5) 10 20 = Throw msg.
Proof.
  apply (pity_milestone_skips_base_validation 0 (1 / 2) (-5) 10 20); lra.
Defined.

(** *** compareBLMImpact *)




(** *** Luck *)

(** X9.  For a base rate [>= 1], luck strictly lowers the denominator and the
    cumulative probability with luck is never below the plain one. *)
Theorem luck_improves (trials : Z) (base : R) :
  (0 <= trials)%Z -> 1 <= base ->
  exists improved p q,
    applyLuckToDropRate base = Ok improved /\ improved < base /\
    calculateCumulativeProbability trials base = Ok p /\
    calculateCumulativeProbabilityWithLuck trials base = Ok q /\
    p <= q.
Proof.
  intros Ht Hb.
  exists (base / LOTD_MULTIPLIER), (curve (plainFactor base) trials),
    (curve (plainFactor (base / LOTD_MULTIPLIER)) trials).
  split; [unfold applyLuckToDropRate; case_R; reflexivity |].
  split; [rewrite luck_divides; lra |].
  split; [apply plain_curve_from_zero; (lia || lra) |].
  split; [apply luck_curve_from_zero; (lia || lra) |].
  apply curve_dominates.
  - intros k _. apply lucky_unit_factor_bounds. exact Hb.
  - intros k _. unfold plainFactor. apply noDropFactor_monotone;
      rewrite luck_divides; lra.
Qed.

Lemma luck_improves_witness :
  exists improved p q,
    applyLuckToDropRate 128 = Ok improved /\ improved < 128 /\
    calculateCumulativeProbability 100 128 = Ok p /\
    calculateCumulativeProbabilityWithLuck 100 128 = Ok q /\
    p <= q.
Proof. apply (luck_improves 100 128); [lia | lra]. Defined.

(** X10.  With zero attempts and a base [<= 0], the plain, pity, luck-and-pity
    and enrage curves return [0] without validating, while
    [calculateCumulativeProbabilityWithLuck] throws: it applies luck before
    it looks at the attempts. *)
Theorem zero_attempts_and_invalid_base
  (base : R) (start : Z) (cap : R) (boss : EnrageScalingBoss) (enrage : R) :
  base <= 0 ->
  calculateCumulativeProbability 0 base = Ok 0 /\
  calculateCumulativeProbabilityWithBLM 0 base start cap = Ok 0 /\
  calculateCumulativeProbabilityWithLuckAndBLM 0 base start cap = Ok 0 /\
  calculateCumulativeProbabilityWithEnrage 0 boss enrage base = Ok 0 /\
  calculateCumulativeProbabilityWithLuck 0 base
  = Throw "Base denominator must be positive"%string.
Proof.
  intros Hb. repeat split.
  unfold calculateCumulativeProbabilityWithLuck, applyLuckToDropRate.
  case_R. reflexivity.
Qed.

Lemma zero_attempts_and_invalid_base_witness :
  calculateCumulativeProbability 0 (-1) = Ok 0 /\
  calculateCumulativeProbabilityWithBLM 0 (-1) 10 20 = Ok 0 /\
  calculateCumulativeProbabilityWithLuckAndBLM 0 (-1) 10 20 = Ok 0 /\
  calculateCumulativeProbabilityWithEnrage 0 telos 100 (-1) = Ok 0 /\
  calculateCumulativeProbabilityWithLuck 0 (-1)
  = Throw "Base denominator must be positive"%string.
Proof. apply (zero_attempts_and_invalid_base (-1) 10 20 telos 100). lra. Defined.

(** *** Milestones of the closed form *)

(** X11.  [findMilestoneAttempts] rejects only rates [<= 0]: at rate [1] it
    returns [0] trials and at a rate in [(0, 1)] it returns [NaN]. *)
Theorem milestone_at_degenerate_rates (target rate : R) :
  0 < target < 1 -> 0 < rate < 1 ->
  findMilestoneAttempts target 1 = Ok (Fin 0) /\
  findMilestoneAttempts target rate = Ok NaN.
Proof.
  intros Ht Hr.
  assert (Hc : 0 < 1 - Rmin target MAX_PROBABILITY).
  { pose proof (Rmin_l target MAX_PROBABILITY). lra. }
  split.
  - unfold findMilestoneAttempts, calculateBaseProbability.
    case_R. cbn [bind]. unfold Math_log.
    destruct (Rlt_dec (1 - 1 / 1) 0); [lra |].
    destruct (Req_EM_T (1 - 1 / 1) 0); [| lra].
    destruct (Rlt_dec (1 - Rmin target MAX_PROBABILITY) 0); [lra |].
    destruct (Req_EM_T (1 - Rmin target MAX_PROBABILITY) 0); [lra |].
    cbn [number_div Math_ceil]. do 3 f_equal. apply Zceil_eq. simpl. lra.
  - unfold findMilestoneAttempts, calculateBaseProbability.
    case_R. cbn [bind]. unfold Math_log.
    assert (1 < 1 / rate) by (apply div_lt_lower; lra).
    destruct (Rlt_dec (1 - 1 / rate) 0); [| lra].
    destruct (Rlt_dec (1 - Rmin target MAX_PROBABILITY) 0); [lra |].
    destruct (Req_EM_T (1 - Rmin target MAX_PROBABILITY) 0); [lra |].
    reflexivity.
Qed.

Lemma milestone_at_degenerate_rates_witness :
  findMilestoneAttempts (9 / 10) 1 = Ok (Fin 0) /\
  findMilestoneAttempts (9 / 10) (1 / 2) = Ok NaN.
Proof. apply (milestone_at_degenerate_rates (9 / 10) (1 / 2)); lra. Defined.

Lemma log_ratio_monotone (q q' y y' : R) :
  0 < q' <= q -> q < 1 -> 0 < y' <= y -> y < 1 ->
  ln y / ln q' <= ln y' / ln q.
Proof.
  intros [Hq' Hqq] Hq [Hy' Hyy] Hy.
  assert (Hlq : ln q < 0) by (apply ln_base_negative; lra).
  assert (Hlq' : ln q' <= ln q).
  { destruct Hqq as [H | ->]; [left; apply ln_increasing; lra | lra]. }
  assert (Hly : ln y < 0) by (apply ln_base_negative; lra).
  assert (Hly' : ln y' <= ln y).
  { destruct Hyy as [H | ->]; [left; apply ln_increasing; lra | lra]. }
  replace (ln y / ln q') with ((- ln y) * / (- ln q')) by (field; lra).
  replace (ln y' / ln q) with ((- ln y') * / (- ln q)) by (field; lra).
  apply Rmult_le_compat; try lra.
  - left. apply Rinv_0_lt_compat. lra.
  - apply Rinv_le_contravar; lra.
Qed.

Lemma milestone_count (target rate : R) :
  0 < target < 1 -> 1 < rate ->
  exists n : Z,
    findMilestoneAttempts target rate = Ok (Fin (IZR n)) /\
    n = Zceil (ln (1 - Rmin target MAX_PROBABILITY) / ln (1 - 1 / rate)) /\
    (1 <= n)%Z.
Proof.
  intros Ht Hr. eexists. split; [apply findMilestoneAttempts_closed_form; lra |].
  split; [reflexivity |].
  pose proof (reciprocal_of_rate rate Hr).
  pose proof (Rmin_l target MAX_PROBABILITY).
  assert (0 < Rmin target MAX_PROBABILITY).
  { apply Rmin_glb_lt; [lra | unfold MAX_PROBABILITY; lra]. }
  pose proof (ratio_positive (1 - 1 / rate)
                (1 - Rmin target MAX_PROBABILITY) ltac:(lra) ltac:(lra)
                ltac:(lra)) as Hpos.
  pose proof (Zceil_bound (ln (1 - Rmin target MAX_PROBABILITY)
                           / ln (1 - 1 / rate))) as [_ Hhi].
  apply Z.lt_pred_le. apply lt_IZR. simpl. lra.
Qed.

Lemma milestone_count_monotone (target target' rate rate' : R) :
  0 < target <= target' -> target' < 1 -> 1 < rate <= rate' ->
  (Zceil (ln (1 - Rmin target MAX_PROBABILITY) / ln (1 - 1 / rate))
   <= Zceil (ln (1 - Rmin target' MAX_PROBABILITY) / ln (1 - 1 / rate')))%Z.
Proof.
  intros [Ht Htt] Ht' [Hr Hrr]. apply Zceil_le.
  pose proof (reciprocal_of_rate rate Hr).
  pose proof (reciprocal_of_rate rate' ltac:(lra)).
  assert (1 / rate' <= 1 / rate).
  { unfold Rdiv. rewrite !Rmult_1_l. apply Rinv_le_contravar; lra. }
  assert (Rmin target MAX_PROBABILITY <= Rmin target' MAX_PROBABILITY).
  { apply Rmin_glb; [| apply Rmin_r].
    pose proof (Rmin_l target MAX_PROBABILITY). lra. }
  pose proof (Rmin_r target' MAX_PROBABILITY).
  assert (0 < Rmin target MAX_PROBABILITY).
  { apply Rmin_glb_lt; [lra | unfold MAX_PROBABILITY; lra]. }
  unfold MAX_PROBABILITY in *.
  apply log_ratio_monotone; lra.
Qed.

(** X12.  For rates in [(1, 10^6]] and targets in [[10^-9, 1)], a higher
    target or a rarer drop never needs fewer trials, and at least one trial
    is needed.  (Every step of the formula is monotone; a target or a rate so
    small or so large that [1 - target] or [1 - 1/rate] rounds to [1] is
    left out, the logarithm being zero there.) *)
Theorem milestone_monotone (target target' rate rate' : R) :
  1 / 1000000000 <= target <= target' -> target' < 1 ->
  1 < rate <= rate' -> rate' <= 1000000 ->
  exists n n' : Z,
    findMilestoneAttempts target rate = Ok (Fin (IZR n)) /\
    findMilestoneAttempts target' rate' = Ok (Fin (IZR n')) /\
    (1 <= n <= n')%Z.
Proof.
  intros Hlow Ht' Hr _.
  assert (Ht : 0 < target <= target') by lra.
  destruct (milestone_count target rate ltac:(lra) ltac:(lra))
    as (n & Hn & En & Hn1).
  destruct (milestone_count target' rate' ltac:(lra) ltac:(lra))
    as (n' & Hn' & En' & _).
  exists n, n'. split; [exact Hn |]. split; [exact Hn' |].
  split; [exact Hn1 |]. subst n n'.
  apply milestone_count_monotone; assumption.
Qed.

Lemma milestone_monotone_witness :
  exists n n' : Z,
    findMilestoneAttempts (1 / 2) 40 = Ok (Fin (IZR n)) /\
    findMilestoneAttempts (9 / 10) 128 = Ok (Fin (IZR n')) /\
    (1 <= n <= n')%Z.
Proof. apply (milestone_monotone (1 / 2) (9 / 10) 40 128); lra. Defined.

(** X13.  For a rate in [(1, 10^6]], [getMilestoneProbabilities] returns
    three integer counts with [1 <= fifty <= ninety <= ninetyNine]. *)
Theorem milestone_cards_ordered (rate : R) :
  1 < rate <= 1000000 ->
  exists a b c : Z,
    getMilestoneProbabilities rate
    = Ok {| fifty := Fin (IZR a);
            ninety := Fin (IZR b);
            ninetyNine := Fin (IZR c) |} /\
    (1 <= a <= b)%Z /\ (b <= c)%Z.
Proof.
  intros [Hr _]. unfold getMilestoneProbabilities.
  destruct (milestone_count (1 / 2) rate ltac:(lra) Hr) as (a & Ha & Ea & Ha1).
  destruct (milestone_count (9 / 10) rate ltac:(lra) Hr) as (b & Hb & Eb & _).
  destruct (milestone_count (99 / 100) rate ltac:(lra) Hr) as (c & Hc & Ec & _).
  exists a, b, c. rewrite Ha, Hb, Hc. cbn [bind].
  split; [reflexivity |]. subst a b c. split; [split; [exact Ha1 |] |];
    apply milestone_count_monotone; lra.
Qed.

Lemma milestone_cards_ordered_witness :
  exists a b c : Z,
    getMilestoneProbabilities 128
    = Ok {| fifty := Fin (IZR a);
            ninety := Fin (IZR b);
            ninetyNine := Fin (IZR c) |} /\
    (1 <= a <= b)%Z /\ (b <= c)%Z.
Proof. apply (milestone_cards_ordered 128). lra. Defined.

(** X14.  For a base rate in [[2, 10^6]] and a target in [[10^-9, 1)], the
    milestone with luck is at most the plain milestone, and
    [calculateKillsSavedWithLuck] returns their difference, which is never
    negative. *)
Theorem luck_saves_kills (target base : R) :
  1 / 1000000000 <= target < 1 -> 2 <= base <= 1000000 ->
  exists without with_ : Z,
    findMilestoneAttempts target base = Ok (Fin (IZR without)) /\
    findMilestoneAttemptsWithLuck target base = Ok (Fin (IZR with_)) /\
    (1 <= with_ <= without)%Z /\
    calculateKillsSavedWithLuck target base = Ok (Fin (IZR (without - with_))).
Proof.
  intros Ht [Hb _].
  assert (Hi : 1 < base / LOTD_MULTIPLIER <= base)
    by (rewrite luck_divides; lra).
  destruct (milestone_count target base ltac:(lra) ltac:(lra))
    as (a & Ha & Ea & _).
  destruct (milestone_count target (base / LOTD_MULTIPLIER) ltac:(lra)
              ltac:(lra)) as (b & Hb' & Eb & Hb1).
  assert (Hluck : findMilestoneAttemptsWithLuck target base = Ok (Fin (IZR b))).
  { unfold findMilestoneAttemptsWithLuck, applyLuckToDropRate.
    case_R. cbn [bind]. exact Hb'. }
  exists a, b. split; [exact Ha |]. split; [exact Hluck |]. split.
  - split; [exact Hb1 |]. subst a b. apply milestone_count_monotone; lra.
  - unfold calculateKillsSavedWithLuck. rewrite Ha, Hluck. cbn [bind number_sub].
    rewrite minus_IZR. reflexivity.
Qed.

Lemma luck_saves_kills_witness :
  exists without with_ : Z,
    findMilestoneAttempts (9 / 10) 128 = Ok (Fin (IZR without)) /\
    findMilestoneAttemptsWithLuck (9 / 10) 128 = Ok (Fin (IZR with_)) /\
    (1 <= with_ <= without)%Z /\
    calculateKillsSavedWithLuck (9 / 10) 128
    = Ok (Fin (IZR (without - with_))).
Proof. apply (luck_saves_kills (9 / 10) 128); lra. Defined.

(** X15.  For a target in [[10^-9, 0.9999]] and
    [1.01 <= cap <= base <= 10^6], the milestone with both modifiers is at
    most the plain milestone, and [calculateKillsSavedWithBoth] returns their
    difference, which is never negative.  (The 1% that luck takes off every
    denominator keeps the search result from passing the closed form when
    that one is rounded.) *)
Theorem both_modifiers_save_kills
  (fuel : nat) (target base : R) (start : Z) (cap : R) :
  1 / 1000000000 <= target <= 9999 / 10000 -> (0 <= start)%Z ->
  101 / 100 <= cap <= base -> base <= 1000000 ->
  (Z.to_nat (Zceil (base * 10)) <= fuel)%nat ->
  exists without with_ : Z,
    findMilestoneAttempts target base = Ok (Fin (IZR without)) /\
    findMilestoneAttemptsWithLuckAndBLM fuel target base start cap
    = Some (Ok with_) /\
    (1 <= with_ <= without)%Z /\
    calculateKillsSavedWithBoth fuel target base start cap
    = Some (Ok (Fin (IZR (without - with_)))).
Proof.
  intros Hlow Hs Hc _ Hfuel.
  assert (Ht : 0 < target <= 9999 / 10000) by lra.
  assert (Hr : 1 < base) by lra.
  pose proof (reciprocal_of_rate base Hr) as Hq.
  destruct (Zceil_ratio_spec (1 - 1 / base) (1 - target) ltac:(lra)
              ltac:(lra) ltac:(lra)) as (m & Hm & Hle & _).
  assert (Ha : findMilestoneAttempts target base
               = Ok (Fin (IZR (Z.of_nat (S m))))).
  { rewrite findMilestoneAttempts_closed_form by lra.
    unfold MAX_PROBABILITY. rewrite Rmin_left by lra. rewrite Hm. reflexivity. }
  destruct (lucky_pity_milestone_count fuel target base start cap Ht Hs Hc Hfuel)
    as (n & Hrun & Hn1 & _ & Hleast).
  assert (Hmeets : target <= curve (luckyPityFactor base start cap)
                              (Z.of_nat (S m))).
  { apply Rle_trans with (curve (plainFactor base) (Z.of_nat (S m))).
    - unfold curve, plainFactor. rewrite rangeProduct_const, Nat2Z.id.
      unfold reported, noDropFactor. apply Rmin_glb; lra.
    - apply curve_dominates.
      + intros k _. apply lucky_pity_factor_bounds. lra.
      + intros k _. apply lucky_pity_below_plain. lra. }
  assert (Hle' : (n <= Z.of_nat (S m))%Z).
  { destruct (Z_le_gt_dec n (Z.of_nat (S m))) as [H | H]; [exact H |].
    specialize (Hleast (Z.of_nat (S m)) ltac:(lia)). lra. }
  exists (Z.of_nat (S m)), n.
  split; [exact Ha |]. split; [exact Hrun |]. split; [lia |].
  unfold calculateKillsSavedWithBoth. rewrite Ha, Hrun. cbn [number_sub].
  rewrite minus_IZR. reflexivity.
Qed.

Lemma both_modifiers_save_kills_witness :
  exists without with_ : Z,
    findMilestoneAttempts (9 / 10) 128 = Ok (Fin (IZR without)) /\
    findMilestoneAttemptsWithLuckAndBLM 1280 (9 / 10) 128 10 20
    = Some (Ok with_) /\
    (1 <= with_ <= without)%Z /\
    calculateKillsSavedWithBoth 1280 (9 / 10) 128 10 20
    = Some (Ok (Fin (IZR (without - with_)))).
Proof.
  apply (both_modifiers_save_kills 1280 (9 / 10) 128 10 20);
    [lra | lia | lra | lra |].
  replace (128 * 10) with (IZR 1280) by lra. rewrite Zceil_IZR. lia.
Defined.

(** *** The pity schedule *)

Lemma pityRate_step (base : R) (start : Z) (cap : R) (kill : Z) :
  cap <= base ->
  pityRate base start cap (kill + 1) <= pityRate base start cap kill.
Proof.
  intros Hc. unfold pityRate.
  destruct (Z.leb_spec (kill + 1) start), (Z.leb_spec kill start); try lia.
  - lra.
  - apply Rmax_lub; [| exact Hc].
    assert (0 <= IZR (kill + 1 - start)) by (apply IZR_le; lia). lra.
  - apply Rmax_lub; [| apply Rmax_r].
    eapply Rle_trans; [| apply Rmax_l].
    assert (IZR (kill - start) <= IZR (kill + 1 - start)) by (apply IZR_le; lia).
    lra.
Qed.

(** X16.  On valid input with [cap <= base], the pity denominator lies between
    the cap and the base, is the base up to the start, does not increase
    from one kill to the next, and is the cap once the kills past the start
    cover [base - cap]. *)
Theorem pity_schedule_shape (kill : Z) (base : R) (start : Z) (cap : R) :
  (1 <= kill)%Z -> (0 <= start)%Z -> 0 < cap <= base ->
  exists d d',
    getDropRateForKill kill base start cap = Ok d /\
    getDropRateForKill (kill + 1) base start cap = Ok d' /\
    cap <= d' <= d /\ d <= base /\
    ((kill <= start)%Z -> d = base) /\
    (base - cap <= IZR (kill - start) -> d = cap).
Proof.
  intros Hk Hs [Hc Hcb].
  rewrite !getDropRateForKill_valid by (lia || lra).
  do 2 eexists. split; [reflexivity |]. split; [reflexivity |].
  split; [split; [apply pityRate_lower; lra | apply pityRate_step; exact Hcb] |].
  split; [apply pityRate_upper; exact Hcb |]. split.
  - intros Hle. unfold pityRate. destruct (Z.leb_spec kill start); [reflexivity | lia].
  - intros Hfar. unfold pityRate. destruct (Z.leb_spec kill start) as [Hle | Hgt].
    + assert (IZR (kill - start) <= 0) by (apply IZR_le; lia). lra.
    + apply Rmax_right. lra.
Qed.

Lemma pity_schedule_shape_witness :
  exists d d',
    getDropRateForKill 118 128 10 20 = Ok d /\
    getDropRateForKill (118 + 1) 128 10 20 = Ok d' /\
    20 <= d' <= d /\ d <= 128 /\
    ((118 <= 10)%Z -> d = 128) /\
    (128 - 20 <= IZR (118 - 10) -> d = 20).
Proof. apply (pity_schedule_shape 118 128 10 20); [lia | lia | lra]. Defined.

(** *** Table-based drops *)

Lemma table_rate_value (n d w t : R) :
  validTable n d w t ->
  calculateTableBasedDropRate n d w t = Ok (1 / (n / d * (w / t))) /\
  1 <= 1 / (n / d * (w / t)).
Proof.
  intros [[Hn Hnd] [Hw Hwt]]. split.
  - unfold calculateTableBasedDropRate, calculateTableHitProbability,
      calculateItemFromTableProbability.
    case_R. reflexivity.
  - replace (1 / (n / d * (w / t))) with ((d / n) * (t / w)) by (field; lra).
    assert (1 <= d / n) by (apply div_le_lower; lra).
    assert (1 <= t / w) by (apply div_le_lower; lra).
    nra.
Qed.

(** X17.  [calculateTableBasedDropRate] returns a rate exactly for the valid
    configurations: positive entries with [numerator <= denominator] and
    [itemWeight <= totalWeight]; otherwise it throws. *)
Theorem table_rate_accepts_valid_only (n d w t : R) :
  (exists rate, calculateTableBasedDropRate n d w t = Ok rate) <->
  validTable n d w t.
Proof.
  split.
  - intros [rate H]. revert H.
    unfold calculateTableBasedDropRate, calculateTableHitProbability,
      calculateItemFromTableProbability, validTable.
    destruct (Rle_dec n 0); [discriminate |].
    destruct (Rle_dec d 0); [discriminate |].
    destruct (Rgt_dec n d); [discriminate |]. cbn [bind].
    destruct (Rle_dec w 0); [discriminate |].
    destruct (Rle_dec t 0); [discriminate |].
    destruct (Rgt_dec w t); [discriminate |]. intros _. lra.
  - intros H. eexists. apply (table_rate_value n d w t H).
Qed.

(** X18.  For a valid table the effective rate is at least [1], the table-based
    cumulative probability is the plain one at that rate, and it lies in
    [[0, 0.9999]]. *)
Theorem table_curve_in_range (trials : Z) (n d w t : R) :
  (0 <= trials)%Z -> validTable n d w t ->
  exists rate p,
    calculateTableBasedDropRate n d w t = Ok rate /\ 1 <= rate /\
    calculateTableBasedCumulativeProbability trials n d w t = Ok p /\
    calculateCumulativeProbability trials rate = Ok p /\
    0 <= p <= 9999 / 10000.
Proof.
  intros Ht Hv. destruct (table_rate_value n d w t Hv) as [Hrate Hone].
  exists (1 / (n / d * (w / t))),
    (curve (plainFactor (1 / (n / d * (w / t)))) trials).
  split; [exact Hrate |]. split; [exact Hone |].
  unfold calculateTableBasedCumulativeProbability. rewrite Hrate. cbn [bind].
  rewrite plain_curve_from_zero by (lia || lra).
  split; [reflexivity |]. split; [reflexivity |].
  apply curve_range. intros k _. apply unit_factor_bounds. exact Hone.
Qed.

Lemma table_curve_in_range_witness :
  exists rate p,
    calculateTableBasedDropRate 6 128 2 12 = Ok rate /\ 1 <= rate /\
    calculateTableBasedCumulativeProbability 100 6 128 2 12 = Ok p /\
    calculateCumulativeProbability 100 rate = Ok p /\
    0 <= p <= 9999 / 10000.
Proof.
  apply (table_curve_in_range 100 6 128 2 12); [lia | unfold validTable; lra].
Defined.



Lemma closed_form_milestone_least (target rate : R) :
  0 < target <= 9999 / 10000 -> 1 < rate ->
  exists m : nat,
    findMilestoneAttempts target rate = Ok (Fin (IZR (Z.of_nat (S m)))) /\
    target <= curve (plainFactor rate) (Z.of_nat (S m)) /\
    curve (plainFactor rate) (Z.of_nat m) < target.
Proof.
  intros Ht Hr. pose proof (reciprocal_of_rate rate Hr) as Hq.
  destruct (Zceil_ratio_spec (1 - 1 / rate) (1 - target) ltac:(lra)
              ltac:(lra) ltac:(lra)) as (m & Hm & Hle & Hlt).
  exists m. split; [| split].
  - rewrite findMilestoneAttempts_closed_form by lra.
    unfold MAX_PROBABILITY. rewrite Rmin_left by lra. rewrite Hm. reflexivity.
  - unfold curve, plainFactor. rewrite rangeProduct_const, Nat2Z.id.
    unfold reported, noDropFactor. apply Rmin_glb; lra.
  - unfold curve, plainFactor. rewrite rangeProduct_const, Nat2Z.id.
    unfold reported, noDropFactor.
    pose proof (Rmin_l (1 - (1 - 1 / rate) ^ m) (9999 / 10000)). lra.
Qed.



(** X21.  For a target in [(0, 0.9999]], [1 <= cap <= base] and a base in
    [(1, 10^6]], the pity milestone of the binary search is at most one above
    the plain milestone of the closed form.  (While [trials <= start] the two
    curves are the same quantity and the closed form can come out one short
    of the least count, so the search may pass it by one.) *)
Theorem pity_milestone_near_plain
  (fuel : nat) (target base : R) (start : Z) (cap : R) :
  0 < target <= 9999 / 10000 -> (0 <= start)%Z -> 1 <= cap <= base ->
  1 < base <= 1000000 -> (Z.to_nat (Zceil (base * 10)) <= fuel)%nat ->
  exists without with_ : Z,
    findMilestoneAttempts target base = Ok (Fin (IZR without)) /\
    findMilestoneAttemptsWithBLM fuel target base start cap
    = Some (Ok with_) /\
    (1 <= with_ <= without + 1)%Z.
Proof.
  intros Ht Hs Hc [Hb _] Hfuel.
  destruct (closed_form_milestone_least target base Ht Hb)
    as (m & Hm & Hmeet & _).
  destruct (pity_milestone_count fuel target base start cap Ht Hs Hc Hfuel)
    as (found & Hrun & Hlow & _ & Hleast).
  exists (Z.of_nat (S m)), found.
  split; [exact Hm |]. split; [exact Hrun |]. split; [exact Hlow |].
  destruct (Z_le_gt_dec found (Z.of_nat (S m))) as [H | H]; [lia |].
  specialize (Hleast (Z.of_nat (S m)) ltac:(lia)).
  assert (curve (plainFactor base) (Z.of_nat (S m))
          <= curve (pityFactor base start cap) (Z.of_nat (S m))).
  { apply curve_dominates.
    - intros k _. unfold pityFactor.
      pose proof (pity_factor_unit base start cap k ltac:(lra) ltac:(lra)). lra.
    - intros k _. apply pity_below_plain. exact Hc. }
  lra.
Qed.

Lemma pity_milestone_near_plain_witness :
  exists without with_ : Z,
    findMilestoneAttempts (9 / 10) 128 = Ok (Fin (IZR without)) /\
    findMilestoneAttemptsWithBLM 1280 (9 / 10) 128 10 20 = Some (Ok with_) /\
    (1 <= with_ <= without + 1)%Z.
Proof.
  apply (pity_milestone_near_plain 1280 (9 / 10) 128 10 20);
    [lra | lia | lra | lra |].
  replace (128 * 10) with (IZR 1280) by lra. rewrite Zceil_IZR. lia.
Defined.

(** *** Enrage scaling *)

Lemma enrageDivisor_positive (boss : EnrageScalingBoss) : 0 < enrageDivisor boss.
Proof. destruct boss; cbn; lra. Qed.

Lemma scaled_value (boss : EnrageScalingBoss) (enrage base : R) :
  inDomain boss enrage ->
  calculateEnrageScaledDropRate boss enrage base
  = Ok (scaledRate boss base enrage).
Proof. apply enrage_scaled_value. Qed.

Lemma inDomain_nonneg (boss : EnrageScalingBoss) (enrage : R) :
  inDomain boss enrage -> 0 <= enrage.
Proof. destruct boss; cbn; lra. Qed.

Lemma inDomain_below (boss : EnrageScalingBoss) (e e' : R) :
  inDomain boss e' -> 0 <= e <= e' -> inDomain boss e.
Proof. destruct boss; cbn; lra. Qed.

Lemma scaledRate_bounds (boss : EnrageScalingBoss) (base enrage : R) :
  0 < base -> 0 <= enrage -> 0 < scaledRate boss base enrage <= base.
Proof.
  intros Hb He. pose proof (enrageDivisor_positive boss) as Hk.
  unfold scaledRate.
  assert (0 <= enrage / enrageDivisor boss) by (apply div_le_lower; lra).
  split; [apply Rdiv_lt_0_compat; lra | apply div_le_upper; nra].
Qed.

Lemma scaledRate_antitone (boss : EnrageScalingBoss) (base e e' : R) :
  0 < base -> 0 <= e <= e' ->
  scaledRate boss base e' <= scaledRate boss base e.
Proof.
  intros Hb [He Hee]. pose proof (enrageDivisor_positive boss) as Hk.
  destruct Hee as [Hlt | ->]; [| lra].
  unfold scaledRate. apply scaling_antitone; lra.
Qed.

Lemma scaledRate_zero (boss : EnrageScalingBoss) (base : R) :
  scaledRate boss base 0 = base.
Proof.
  pose proof (enrageDivisor_positive boss). unfold scaledRate. field. lra.
Qed.

(** X22.  Inside the domain of the boss and while the scaled rate stays [>= 1],
    the scaled rate is at most the base rate, the enrage curve is the plain
    curve at the scaled rate, and it is never below the plain curve at the
    base rate. *)
Theorem enrage_never_worse
  (trials : Z) (boss : EnrageScalingBoss) (enrage base : R) :
  (0 <= trials)%Z -> inDomain boss enrage ->
  1 + enrage / enrageDivisor boss <= base ->
  exists scaled p q,
    calculateEnrageScaledDropRate boss enrage base = Ok scaled /\
    1 <= scaled <= base /\
    calculateCumulativeProbability trials base = Ok p /\
    calculateCumulativeProbabilityWithEnrage trials boss enrage base = Ok q /\
    calculateCumulativeProbability trials scaled = Ok q /\
    p <= q.
Proof.
  intros Ht Hd Hb. pose proof (enrageDivisor_positive boss) as Hk.
  pose proof (inDomain_nonneg boss enrage Hd) as He.
  assert (Hdiv : 0 <= enrage / enrageDivisor boss) by (apply div_le_lower; lra).
  assert (Hbase : 0 < base) by lra.
  pose proof (scaledRate_bounds boss base enrage Hbase He) as [Hs0 Hs1].
  assert (Hone : 1 <= scaledRate boss base enrage).
  { unfold scaledRate. apply div_le_lower; lra. }
  exists (scaledRate boss base enrage), (curve (plainFactor base) trials),
    (curve (plainFactor (scaledRate boss base enrage)) trials).
  split; [apply scaled_value; exact Hd |]. split; [lra |].
  split; [apply plain_curve_from_zero; (lia || lra) |].
  split; [| split; [apply plain_curve_from_zero; (lia || lra) |]].
  - destruct (Z.eq_dec trials 0) as [-> | Hne].
    + rewrite curve_zero. reflexivity.
    + apply (enrage_reported trials boss enrage base); [lia |].
      apply scaled_value. exact Hd.
  - apply curve_dominates.
    + intros k _. apply unit_factor_bounds. exact Hone.
    + intros k _. unfold plainFactor. apply noDropFactor_monotone; lra.
Qed.

Lemma enrage_never_worse_witness :
  exists scaled p q,
    calculateEnrageScaledDropRate telos 1000 128 = Ok scaled /\
    1 <= scaled <= 128 /\
    calculateCumulativeProbability 100 128 = Ok p /\
    calculateCumulativeProbabilityWithEnrage 100 telos 1000 128 = Ok q /\
    calculateCumulativeProbability 100 scaled = Ok q /\
    p <= q.
Proof.
  apply (enrage_never_worse 100 telos 1000 128); [lia | cbn; lra | cbn; lra].
Defined.

Section EnrageSearch.
Variable boss : EnrageScalingBoss.
Variables base target : R.
Variable maxEnrage : Z.
Hypothesis base_positive : 0 < base.
Hypothesis max_in_domain : inDomain boss (IZR maxEnrage).

Lemma enrageSearch_least (fuel : nat) : forall low high : Z,
  (0 <= low < high)%Z -> (high <= maxEnrage)%Z ->
  (Z.to_nat (high - low) <= fuel)%nat ->
  target < scaledRate boss base (IZR low) ->
  scaledRate boss base (IZR high) <= target ->
  exists found : Z,
    enrageSearch boss base target fuel low (IZR high) = Some (Ok (IZR found)) /\
    (low < found <= high)%Z /\
    scaledRate boss base (IZR found) <= target /\
    target < scaledRate boss base (IZR (found - 1)).
Proof.
  induction fuel as [| fuel IH]; intros low high Hlh Hmax Hfuel Hlow Hhigh;
    [lia |].
  cbn [enrageSearch].
  destruct (Rgt_dec (IZR high - IZR low) 1) as [Hgap | Hgap].
  - assert (Hgap' : (low + 2 <= high)%Z).
    { assert (low + 1 < high)%Z; [| lia].
      apply lt_IZR. rewrite plus_IZR. lra. }
    apply IZR_le in Hgap'. rewrite plus_IZR in Hgap'.
    set (mid := Zfloor ((IZR low + IZR high) / 2)).
    assert (Hmid1 : (low + 1 <= mid)%Z).
    { apply Zfloor_lub. rewrite plus_IZR. lra. }
    assert (Hmid2 : (mid <= high - 1)%Z).
    { apply le_IZR. rewrite minus_IZR.
      pose proof (Zfloor_bound ((IZR low + IZR high) / 2)). fold mid in H. lra. }
    rewrite scaled_value.
    2:{ apply (inDomain_below boss _ (IZR maxEnrage) max_in_domain).
        split; [apply IZR_le; lia | apply IZR_le; lia]. }
    destruct (Rgt_dec (scaledRate boss base (IZR mid)) target) as [Hp | Hp].
    + destruct (IH mid high ltac:(lia) Hmax ltac:(lia) Hp Hhigh)
        as (found & Hrun & Hrange & Hok & Hprev).
      exists found. repeat split; try assumption; lia.
    + destruct (IH low mid ltac:(lia) ltac:(lia) ltac:(lia) Hlow ltac:(lra))
        as (found & Hrun & Hrange & Hok & Hprev).
      exists found. repeat split; try assumption; lia.
  - assert (Heq : high = (low + 1)%Z).
    { assert (high <= low + 1)%Z; [| lia].
      apply le_IZR. rewrite plus_IZR. lra. }
    exists high. split; [reflexivity |]. split; [lia |].
    split; [exact Hhigh |]. replace (high - 1)%Z with low by lia. exact Hlow.
Qed.
End EnrageSearch.

(** X23.  For an integer [maxEnrage >= 1] inside the domain, a target below the
    base rate that is reached at [maxEnrage], and fuel for [maxEnrage] steps,
    [findEnrageForTargetDropRate] returns the least integer enrage whose
    scaled rate is at most the target. *)
Theorem enrage_search_least
  (fuel : nat) (boss : EnrageScalingBoss) (base target : R) (maxEnrage : Z) :
  0 < base -> target < base -> (1 <= maxEnrage)%Z ->
  inDomain boss (IZR maxEnrage) ->
  (exists s,
     calculateEnrageScaledDropRate boss (IZR maxEnrage) base = Ok s /\
     s <= target) ->
  (Z.to_nat maxEnrage <= fuel)%nat ->
  exists found : Z,
    findEnrageForTargetDropRate fuel boss base target (IZR maxEnrage)
    = Some (Ok (IZR found)) /\
    (1 <= found <= maxEnrage)%Z /\
    (exists s,
       calculateEnrageScaledDropRate boss (IZR found) base = Ok s /\
       s <= target) /\
    (exists s',
       calculateEnrageScaledDropRate boss (IZR (found - 1)) base = Ok s' /\
       target < s').
Proof.
  intros Hb Ht Hmax Hdom (s & Hs & Hreach) Hfuel.
  rewrite scaled_value in Hs by exact Hdom. injection Hs as <-.
  unfold findEnrageForTargetDropRate. case_R.
  destruct (enrageSearch_least boss base target maxEnrage Hdom fuel 0 maxEnrage)
    as (found & Hrun & Hrange & Hok & Hprev);
    [lia | lia | lia | rewrite scaledRate_zero; exact Ht | exact Hreach |].
  exists found. split; [exact Hrun |]. split; [lia |]. split.
  - exists (scaledRate boss base (IZR found)). split; [| exact Hok].
    apply scaled_value. apply (inDomain_below boss _ (IZR maxEnrage) Hdom).
    split; apply IZR_le; lia.
  - exists (scaledRate boss base (IZR (found - 1))). split; [| exact Hprev].
    apply scaled_value. apply (inDomain_below boss _ (IZR maxEnrage) Hdom).
    split; apply IZR_le; lia.
Qed.

Lemma enrage_search_least_witness :
  exists found : Z,
    findEnrageForTargetDropRate 4000 telos 128 64 (IZR 4000)
    = Some (Ok (IZR found)) /\
    (1 <= found <= 4000)%Z /\
    (exists s,
       calculateEnrageScaledDropRate telos (IZR found) 128 = Ok s /\
       s <= 64) /\
    (exists s',
       calculateEnrageScaledDropRate telos (IZR (found - 1)) 128 = Ok s' /\
       64 < s').
Proof.
  apply (enrage_search_least 4000 telos 128 64 4000);
    [lra | lra | lia | cbn; lra | | lia].
  exists (scaledRate telos 128 4000). split; [apply scaled_value; cbn; lra |].
  unfold scaledRate. cbn [enrageDivisor]. lra.
Defined.

(** X24.  With [maxEnrage] strictly between [1] and [2] and a target below the
    base rate, the midpoint is [0] forever: the search returns with no
    amount of fuel. *)
Theorem enrage_search_never_ends
  (fuel : nat) (boss : EnrageScalingBoss) (base target maxEnrage : R) :
  target < base -> 1 < maxEnrage < 2 ->
  findEnrageForTargetDropRate fuel boss base target maxEnrage = None.
Proof.
  intros Ht Hm. unfold findEnrageForTargetDropRate. case_R.
  induction fuel as [| fuel IH]; [reflexivity |].
  cbn [enrageSearch]. destruct (Rgt_dec (maxEnrage - 0) 1) as [_ | H]; [| lra].
  replace (Zfloor ((0 + maxEnrage) / 2)) with 0%Z
    by (symmetry; apply Zfloor_eq; lra).
  rewrite scaled_value by (destruct boss; cbn; lra).
  rewrite scaledRate_zero.
  destruct (Rgt_dec base target); [exact IH | lra].
Qed.

Lemma enrage_search_never_ends_witness :
  findEnrageForTargetDropRate 1000 telos 128 100 (3 / 2) = None.
Proof. apply (enrage_search_never_ends 1000 telos 128 100 (3 / 2)); lra. Defined.

(** X25.  With [maxEnrage <= 1] the search probes nothing and returns
    [maxEnrage] as it is, even outside the domain; a target above the base
    rate is rejected before the search. *)
Theorem enrage_search_edges
  (fuel : nat) (boss : EnrageScalingBoss) (base target maxEnrage : R) :
  target <= base -> maxEnrage <= 1 ->
  findEnrageForTargetDropRate (S fuel) boss base target maxEnrage
  = Some (Ok maxEnrage) /\
  (forall worse, base < worse ->
     findEnrageForTargetDropRate fuel boss base worse maxEnrage
     = Some (Throw "Target drop rate cannot be worse than base rate"%string)).
Proof.
  intros Ht Hm. split.
  - unfold findEnrageForTargetDropRate. case_R.
    cbn [enrageSearch]. case_R. reflexivity.
  - intros worse H. unfold findEnrageForTargetDropRate. case_R. reflexivity.
Qed.

Lemma enrage_search_edges_witness :
  findEnrageForTargetDropRate 1 telos 128 100 (-5) = Some (Ok (-5)) /\
  (forall worse, 128 < worse ->
     findEnrageForTargetDropRate 0 telos 128 worse (-5)
     = Some (Throw "Target drop rate cannot be worse than base rate"%string)).
Proof. apply (enrage_search_edges 0 telos 128 100 (-5)); lra. Defined.

(** ** Further properties of graphDataGenerator.ts *)

Lemma Zceil_scaled_up (a : Z) : (a <= Zceil (IZR a * (12 / 10)))%Z \/ (a < 0)%Z.
Proof.
  destruct (Z_lt_le_dec a 0) as [H | H]; [right; exact H | left].
  rewrite <- (Zceil_IZR a) at 1. apply Zceil_le.
  apply IZR_le in H. lra.
Qed.

(** X26.  For a rate in [(1, 10^6]], [calculateSmartMaxAttempts] is an integer
    in [[50, 30000]] that is at least the 99% milestone, unless that exceeds
    [30000]. *)
Theorem smart_max_attempts_bounds (rate : R) :
  1 < rate <= 1000000 ->
  exists n milestone : Z,
    calculateSmartMaxAttempts rate = Fin (IZR n) /\
    (50 <= n <= 30000)%Z /\
    findMilestoneAttempts (99 / 100) rate = Ok (Fin (IZR milestone)) /\
    (Z.min milestone 30000 <= n)%Z.
Proof.
  intros [Hr _]. pose proof (reciprocal_of_rate rate Hr) as Hq.
  destruct (milestone_count (99 / 100) rate ltac:(lra) Hr) as (a & Ha & Ea & Ha1).
  unfold MAX_PROBABILITY in Ea. rewrite Rmin_left in Ea by lra.
  replace (1 - 99 / 100) with (1 / 100) in Ea by lra.
  set (b := Zceil (IZR a * (12 / 10))).
  exists (Z.min (Z.max b 50) 30000), a.
  split; [| split; [lia | split; [exact Ha |]]].
  - unfold calculateSmartMaxAttempts.
    destruct (Req_EM_T rate 0); [lra |]. unfold Math_log.
    assert (Hl : ln (1 - 1 / rate) < 0) by (apply ln_base_negative; lra).
    destruct (Rlt_dec (1 / 100) 0); [lra |].
    destruct (Req_EM_T (1 / 100) 0); [lra |].
    destruct (Rlt_dec (1 - 1 / rate) 0); [lra |].
    destruct (Req_EM_T (1 - 1 / rate) 0); [lra |].
    cbn [number_div]. destruct (Req_EM_T (ln (1 - 1 / rate)) 0); [lra |].
    cbn [Math_ceil number_mul]. rewrite <- Ea. fold b.
    cbn [Math_max Math_min]. f_equal.
    unfold Rmax, Rmin.
    destruct (Rle_dec (IZR b) 50) as [H1 | H1].
    + apply le_IZR in H1. rewrite Z.max_r by lia.
      destruct (Rle_dec 50 30000); [| lra]. rewrite Z.min_l by lia. reflexivity.
    + assert (H1' : (50 < b)%Z) by (apply lt_IZR; lra).
      rewrite Z.max_l by lia.
      destruct (Rle_dec (IZR b) 30000) as [H2 | H2].
      * apply le_IZR in H2. rewrite Z.min_l by lia. reflexivity.
      * assert (30000 < b)%Z by (apply lt_IZR; lra).
        rewrite Z.min_r by lia. reflexivity.
  - destruct (Zceil_scaled_up a) as [H | H]; [fold b in H | lia]. lia.
Qed.

Lemma smart_max_attempts_bounds_witness :
  exists n milestone : Z,
    calculateSmartMaxAttempts 128 = Fin (IZR n) /\
    (50 <= n <= 30000)%Z /\
    findMilestoneAttempts (99 / 100) 128 = Ok (Fin (IZR milestone)) /\
    (Z.min milestone 30000 <= n)%Z.
Proof. apply (smart_max_attempts_bounds 128). lra. Defined.

(** X27.  [calculateSmartMaxAttempts] validates nothing: rate [1] and negative
    rates give the floor [50], rates in [[0, 1)] give [NaN]. *)
Theorem smart_max_attempts_degenerate (negative small : R) :
  negative < 0 -> 0 <= small < 1 ->
  calculateSmartMaxAttempts 1 = Fin 50 /\
  calculateSmartMaxAttempts negative = Fin 50 /\
  calculateSmartMaxAttempts small = NaN.
Proof.
  intros Hn Hs. split; [| split].
  - unfold calculateSmartMaxAttempts.
    destruct (Req_EM_T 1 0); [lra |]. unfold Math_log.
    destruct (Rlt_dec (1 / 100) 0); [lra |].
    destruct (Req_EM_T (1 / 100) 0); [lra |].
    destruct (Rlt_dec (1 - 1 / 1) 0); [lra |].
    destruct (Req_EM_T (1 - 1 / 1) 0); [| lra].
    cbn [number_div Math_ceil number_mul].
    replace (Zceil 0) with 0%Z by (symmetry; apply Zceil_eq; simpl; lra).
    replace (0 * (12 / 10)) with 0 by lra.
    replace (Zceil 0) with 0%Z by (symmetry; apply Zceil_eq; simpl; lra).
    cbn [Math_max Math_min]. f_equal.
    rewrite Rmax_right by lra. apply Rmin_left. lra.
  - unfold calculateSmartMaxAttempts.
    destruct (Req_EM_T negative 0); [lra |]. unfold Math_log.
    assert (Hinv : 1 / negative < 0).
    { unfold Rdiv. rewrite Rmult_1_l. apply Rinv_lt_0_compat. exact Hn. }
    assert (Hl : 0 < ln (1 - 1 / negative)).
    { rewrite <- ln_1. apply ln_increasing; lra. }
    assert (Hc : ln (1 / 100) < 0) by (apply ln_base_negative; lra).
    destruct (Rlt_dec (1 / 100) 0); [lra |].
    destruct (Req_EM_T (1 / 100) 0); [lra |].
    destruct (Rlt_dec (1 - 1 / negative) 0); [lra |].
    destruct (Req_EM_T (1 - 1 / negative) 0); [lra |].
    cbn [number_div]. destruct (Req_EM_T (ln (1 - 1 / negative)) 0); [lra |].
    cbn [Math_ceil number_mul].
    set (x := ln (1 / 100) / ln (1 - 1 / negative)).
    assert (Hx : x < 0).
    { unfold x. replace (ln (1 / 100) / ln (1 - 1 / negative))
        with (- ((- ln (1 / 100)) * / ln (1 - 1 / negative))) by (field; lra).
      assert (0 < (- ln (1 / 100)) * / ln (1 - 1 / negative))
        by (apply Rmult_lt_0_compat; [lra | apply Rinv_0_lt_compat; lra]).
      lra. }
    assert (Ha : (Zceil x <= 0)%Z).
    { rewrite <- (Zceil_IZR 0). apply Zceil_le. lra. }
    assert (Hb : (Zceil (IZR (Zceil x) * (12 / 10)) <= 0)%Z).
    { rewrite <- (Zceil_IZR 0). apply Zceil_le. apply IZR_le in Ha. lra. }
    cbn [Math_max Math_min]. f_equal. apply IZR_le in Hb.
    rewrite Rmax_right by lra. apply Rmin_left. lra.
  - unfold calculateSmartMaxAttempts.
    destruct (Req_EM_T small 0) as [_ | Hne]; [reflexivity |].
    assert (1 < 1 / small) by (apply div_lt_lower; lra).
    unfold Math_log.
    destruct (Rlt_dec (1 / 100) 0); [lra |].
    destruct (Req_EM_T (1 / 100) 0); [lra |].
    destruct (Rlt_dec (1 - 1 / small) 0); [| lra].
    reflexivity.
Qed.

Lemma smart_max_attempts_degenerate_witness :
  calculateSmartMaxAttempts 1 = Fin 50 /\
  calculateSmartMaxAttempts (-3) = Fin 50 /\
  calculateSmartMaxAttempts (1 / 2) = NaN.
Proof. apply (smart_max_attempts_degenerate (-3) (1 / 2)); lra. Defined.

(** X28.  [getActiveLines] always shows the base line, shows the combined line
    exactly when both modifiers are enabled and applicable, and then hides
    the two single lines; the luck line and the pity line are never shown
    together. *)
Theorem active_lines_exclusive
  (luckEnabled blmEnabled luckApplicable blmApplicable : bool) :
  let lines :=
    getActiveLines luckEnabled blmEnabled luckApplicable blmApplicable in
  showBase lines = true /\
  showBoth lines
  = andb (andb luckEnabled luckApplicable) (andb blmEnabled blmApplicable) /\
  (showBoth lines = true -> showLuck lines = false /\ showBLM lines = false) /\
  (showBoth lines = false ->
   showLuck lines = andb luckEnabled luckApplicable /\
   showBLM lines = andb blmEnabled blmApplicable) /\
  (showLuck lines = true -> showBLM lines = false).
Proof.
  destruct luckEnabled, blmEnabled, luckApplicable, blmApplicable; cbn;
    repeat split; intros; congruence.
Qed.

Lemma generateBaseData_valid (values : list Z) (rate : R) :
  0 < rate -> Forall (fun a => (0 <= a)%Z) values ->
  generateBaseData values rate = Ok (map (basePoint rate) values).
Proof.
  intros Hr Hall. induction Hall as [| a rest Ha _ IH]; [reflexivity |].
  cbn [generateBaseData map]. rewrite plain_curve_from_zero by assumption.
  cbn [bind]. rewrite IH. reflexivity.
Qed.

Lemma generateBaseData_negative (values : list Z) (rate : R) :
  0 < rate -> Exists (fun a => (a < 0)%Z) values ->
  generateBaseData values rate = Throw "Attempts must be non-negative"%string.
Proof.
  intros Hr. induction values as [| a rest IH]; intros Hex;
    [inversion Hex |].
  cbn [generateBaseData]. destruct (Z_lt_le_dec a 0) as [Hneg | Hpos].
  - unfold calculateCumulativeProbability.
    destruct (Z.ltb_spec a 0); [reflexivity | lia].
  - rewrite plain_curve_from_zero by assumption. cbn [bind].
    rewrite IH; [reflexivity |].
    inversion Hex as [? ? Hhead | ? ? Htail]; subst; [lia | exact Htail].
Qed.

(** X29.  For a positive rate, [generateBaseData] maps a list of non-negative
    counts to points in the same order, each carrying the plain cumulative
    probability and no optional series; a negative count anywhere ends the
    call with the attempts error. *)
Theorem base_data_pointwise (values more : list Z) (bad : Z) (rate : R) :
  0 < rate -> Forall (fun a => (0 <= a)%Z) values -> (bad < 0)%Z ->
  (exists points,
     generateBaseData values rate = Ok points /\
     map attempts points = values /\
     Forall (fun point =>
               calculateCumulativeProbability (attempts point) rate
               = Ok (base point) /\
               GraphDataGenerator.withLuck point = None /\
               GraphDataGenerator.withBLM point = None /\
               GraphDataGenerator.withBoth point = None /\
               withEnrage point = None) points) /\
  generateBaseData (values ++ bad :: more) rate
  = Throw "Attempts must be non-negative"%string.
Proof.
  intros Hr Hall Hbad. split.
  - exists (map (basePoint rate) values).
    split; [apply generateBaseData_valid; assumption |]. split.
    + rewrite map_map. cbn [basePoint attempts]. apply map_id.
    + apply Forall_map. eapply Forall_impl; [| exact Hall].
      intros a Ha. cbn [basePoint attempts base GraphDataGenerator.withLuck
                          GraphDataGenerator.withBLM GraphDataGenerator.withBoth
                          withEnrage].
      split; [apply plain_curve_from_zero; assumption | repeat split].
  - apply generateBaseData_negative; [exact Hr |].
    apply Exists_app. right. constructor. exact Hbad.
Qed.

Lemma base_data_pointwise_witness :
  (exists points,
     generateBaseData [0%Z; 4%Z; 8%Z; 10%Z] 128 = Ok points /\
     map attempts points = [0%Z; 4%Z; 8%Z; 10%Z] /\
     Forall (fun point =>
               calculateCumulativeProbability (attempts point) 128
               = Ok (base point) /\
               GraphDataGenerator.withLuck point = None /\
               GraphDataGenerator.withBLM point = None /\
               GraphDataGenerator.withBoth point = None /\
               withEnrage point = None) points) /\
  generateBaseData ([0%Z; 4%Z; 8%Z; 10%Z] ++ (-1)%Z :: [12%Z]) 128
  = Throw "Attempts must be non-negative"%string.
Proof.
  apply (base_data_pointwise [0%Z; 4%Z; 8%Z; 10%Z] [12%Z] (-1) 128);
    [lra | repeat constructor; lia | lia].
Defined.

(** The sampled counts ascend from zero. *)
Lemma sample_values_ascending (fuel : nat) (maxTrials maxPoints : Z) :
  (1 <= maxTrials)%Z -> (2 <= maxPoints)%Z -> (Z.to_nat maxTrials <= fuel)%nat ->
  exists rest,
    generateAttemptValues fuel maxTrials maxPoints = Some (0%Z :: rest) /\
    StronglySorted Z.lt (0%Z :: rest).
Proof.
  intros Hmax Hpoints Hfuel. unfold generateAttemptValues.
  destruct (Z.eqb_spec (maxPoints - 1) 0) as [H0 | _]; [lia |].
  set (step := ceilDiv maxTrials (maxPoints - 1)).
  pose proof (ceilDiv_bounds maxTrials (maxPoints - 1) ltac:(lia)) as Hstep.
  fold step in Hstep.
  assert (Hpos : (0 < step)%Z) by nia.
  destruct (pushLoop_result step maxTrials Hpos fuel step [0%Z] ltac:(lia))
    as (pushed & Hrun & Hsorted & Hall & _).
  rewrite Hrun.
  assert (Hbody : StronglySorted Z.lt ([0%Z] ++ pushed)).
  { apply (StronglySorted_app_lt [0%Z] pushed step).
    - repeat constructor.
    - exact Hsorted.
    - repeat constructor. exact Hpos.
    - eapply Forall_impl; [| exact Hall]. cbn. intros x Hx. lia. }
  assert (Hbelow : Forall (fun x => (x < maxTrials)%Z) ([0%Z] ++ pushed)).
  { apply Forall_app. split; [repeat constructor; lia |].
    eapply Forall_impl; [| exact Hall]. cbn. intros x Hx. lia. }
  unfold pushMax. destruct (last ([0%Z] ++ pushed) 0 =? maxTrials)%Z.
  - exists pushed. split; [reflexivity | exact Hbody].
  - exists (pushed ++ [maxTrials]). split; [reflexivity |].
    change (0%Z :: pushed ++ [maxTrials]) with (([0%Z] ++ pushed) ++ [maxTrials]).
    apply (StronglySorted_app_lt _ [maxTrials] maxTrials);
      [exact Hbody | repeat constructor | exact Hbelow
       | repeat constructor; lia].
Qed.

Lemma base_points_ascending (rate : R) (values : list Z) (floor : Z) :
  1 <= rate -> (0 <= floor)%Z ->
  StronglySorted Z.lt values -> Forall (fun a => (floor <= a)%Z) values ->
  StronglySorted (fun a b => base a <= base b) (map (basePoint rate) values).
Proof.
  intros Hr Hfloor Hsorted. revert floor Hfloor.
  induction Hsorted as [| a rest Hs IH Ha]; intros floor Hfloor Hall;
    cbn [map]; constructor.
  - inversion Hall; subst. apply (IH a); [lia |].
    eapply Forall_impl; [| exact Ha]. cbn. intros; lia.
  - inversion Hall; subst. apply Forall_map.
    eapply Forall_impl; [| exact Ha]. cbn [basePoint base]. intros b Hb.
    apply curve_increasing; [| lia].
    intros k _. apply plain_factor_unit. exact Hr.
Qed.

(** X30.  For [maxTrials >= 1], [maxPoints >= 2] and a rate [>= 1], the base
    series over the sampled counts starts at [(0, 0)], never decreases, and
    stays in [[0, 0.9999]]. *)
Theorem sampled_base_curve (fuel : nat) (maxTrials maxPoints : Z) (rate : R) :
  (1 <= maxTrials)%Z -> (2 <= maxPoints)%Z -> (Z.to_nat maxTrials <= fuel)%nat ->
  1 <= rate ->
  exists values first points,
    generateAttemptValues fuel maxTrials maxPoints = Some values /\
    generateBaseData values rate = Ok (first :: points) /\
    map attempts (first :: points) = values /\
    attempts first = 0%Z /\ base first = 0 /\
    StronglySorted (fun a b => base a <= base b) (first :: points) /\
    Forall (fun point => 0 <= base point <= 9999 / 10000) (first :: points).
Proof.
  intros Hmax Hpoints Hfuel Hr.
  destruct (sample_values_ascending fuel maxTrials maxPoints Hmax Hpoints Hfuel)
    as (rest & Hrun & Hsorted).
  assert (Hnonneg : Forall (fun a => (0 <= a)%Z) (0%Z :: rest)).
  { constructor; [lia |]. inversion Hsorted as [| ? ? _ Hlt]; subst.
    eapply Forall_impl; [| exact Hlt]. cbn. intros; lia. }
  exists (0%Z :: rest), (basePoint rate 0), (map (basePoint rate) rest).
  split; [exact Hrun |].
  split; [apply (generateBaseData_valid (0%Z :: rest)); [lra | exact Hnonneg] |].
  split; [change (basePoint rate 0 :: map (basePoint rate) rest)
            with (map (basePoint rate) (0%Z :: rest));
          rewrite map_map; cbn [basePoint attempts]; apply map_id |].
  split; [reflexivity |]. split; [apply curve_zero |]. split.
  - apply (base_points_ascending rate (0%Z :: rest) 0 Hr ltac:(lia) Hsorted Hnonneg).
  - change (basePoint rate 0 :: map (basePoint rate) rest)
      with (map (basePoint rate) (0%Z :: rest)).
    apply Forall_map. apply Forall_forall. intros a _. cbn [basePoint base].
    apply curve_range. intros k _. apply unit_factor_bounds. exact Hr.
Qed.

Lemma sampled_base_curve_witness :
  exists values first points,
    generateAttemptValues 10 10 4 = Some values /\
    generateBaseData values 128 = Ok (first :: points) /\
    map attempts (first :: points) = values /\
    attempts first = 0%Z /\ base first = 0 /\
    StronglySorted (fun a b => base a <= base b) (first :: points) /\
    Forall (fun point => 0 <= base point <= 9999 / 10000) (first :: points).
Proof.
  apply (sampled_base_curve 10 10 4 128); [lia | lia | vm_compute; lia | lra].
Defined.
